(** * cc_pseudo_crawl/pseudo_crawl_seed_to_lm_dset.py

    A shallow embedding of the seed-to-corpus script: schema resolution
    ([convert_types]), boilerplate detection ([get_lines_to_skip]), page
    processing ([get_meta_dict], [filter_lines], [process_page]) and the
    corpus writer ([make_seed_jsonl]), followed by the properties of the
    pipeline that the specification states.

    Python values are modelled as follows.
    - [str] is a list of Unicode code points ([N]); [len] is [length].
    - a [dict] used as a lookup table is a [gmap]; a [dict] whose order is
      visible (the feature description) is an association list.
    - an exception is the left injection of [result]. *)

From Stdlib Require Import String Ascii ZArith NArith Lia DecimalString.
From stdpp Require Import gmap list list_numbers.

#[local] Set Warnings "-register-all,-abstract-large-number".

Local Open Scope N_scope.

(** ** Python strings *)

Module PyStr.

Definition str : Type := list N.

(** A literal: the code points of an ASCII string. *)
Fixpoint lit (s : string) : str :=
  match s with
  | EmptyString => []
  | String a s' => N_of_ascii a :: lit s'
  end.

Arguments lit s%_string.

(** The separator of [article.split("\n")] and ["\n".join(...)]. *)
Definition nl : N := 10.

(** [str.isspace] on one code point: the characters that [str.strip()]
    removes when called without an argument. *)
Definition is_space (c : N) : bool :=
  ((9 <=? c) && (c <=? 13)) || ((28 <=? c) && (c <=? 32))
  || (c =? 133) || (c =? 160) || (c =? 5760)
  || ((8192 <=? c) && (c <=? 8202))
  || (c =? 8232) || (c =? 8233) || (c =? 8239) || (c =? 8287)
  || (c =? 12288).

Fixpoint lstrip (s : str) : str :=
  match s with
  | [] => []
  | c :: s' => if is_space c then lstrip s' else s
  end.

Definition rstrip (s : str) : str := rev (lstrip (rev s)).

(** [s.strip()] *)
Definition strip (s : str) : str := rstrip (lstrip s).

(** [s.split(sep)] for a one-character separator: never empty, an empty
    string gives one empty field. *)
Fixpoint split (sep : N) (s : str) : list str :=
  match s with
  | [] => [[]]
  | c :: s' =>
      if c =? sep then [] :: split sep s'
      else match split sep s' with
           | [] => [[c]]
           | l :: ls => (c :: l) :: ls
           end
  end.

(** [sep.join(ls)] *)
Fixpoint join (sep : str) (ls : list str) : str :=
  match ls with
  | [] => []
  | l :: ls' =>
      match ls' with
      | [] => l
      | _ :: _ => l ++ sep ++ join sep ls'
      end
  end.

End PyStr.

Import PyStr.

(** ** Exceptions *)

Inductive pyerr : Type :=
| AttributeError
| KeyError
| ValueError
| TypeError
| IndexError.

Definition result (A : Type) : Type := pyerr + A.

Definition ok {A} (a : A) : result A := inr a.
Definition raise {A} (e : pyerr) : result A := inl e.

Definition rbind {A B} (m : result A) (k : A -> result B) : result B :=
  match m with
  | inl e => inl e
  | inr a => k a
  end.

Notation "'try' x <- m 'in' k" := (rbind m (fun x => k))
  (at level 10, x name, m at level 100, k at level 200).

(** ** Page records and the page processor *)

(** The fields of a crawled page that the script reads, each with a value
    of its type (a row with a null text is not a value of this record). *)
Record page : Type := Page {
  url : str;
  content_languages : str;
  seed_id : Z;
  text : str
}.

(** The value of [get_meta_dict]: the keys "url", "content_languages" and
    "seed_id". *)
Record meta_dict : Type := Meta {
  m_url : str;
  m_content_languages : str;
  m_seed_id : Z
}.

(** The entry built by [process_page]: the keys "meta" and "text". *)
Record entry : Type := Entry {
  e_meta : meta_dict;
  e_text : str
}.

Definition get_meta_dict (p : page) : meta_dict :=
  {| m_url := url p;
     m_content_languages := content_languages p;
     m_seed_id := seed_id p |}.

(** [skip_dict.get(line, False)] *)
Definition flagged (skip_dict : gmap str bool) (line : str) : bool :=
  default false (skip_dict !! line).

(** One iteration of the loop of [filter_lines] over the pair (keep, skip). *)
Definition filter_step (skip_dict : gmap str bool)
    (acc : list str * list str) (line : str) : list str * list str :=
  if flagged skip_dict line
  then (fst acc, snd acc ++ [line])
  else (fst acc ++ [line], snd acc).

Definition filter_lines (article : str) (skip_dict : gmap str bool)
    : str * str :=
  let lines := map strip (split nl article) in
  let acc := fold_left (filter_step skip_dict) lines ([], []) in
  (strip (join [nl] (fst acc)), strip (join [nl] (snd acc))).

Definition process_page (p : page) (skip_dict : gmap str bool) : entry :=
  let meta := get_meta_dict p in
  let text := fst (filter_lines (text p) skip_dict) in
  {| e_meta := meta; e_text := text |}.

(** ** The boilerplate line detector *)

(** [load_dataset] returns a dictionary of splits; the script reads the
    "train" split only. *)
Record dataset_dict : Type := DatasetDict {
  train : list page
}.

(** [Dataset.select(indices)] of the [datasets] library, which is not part
    of the sources: an empty dataset is returned as it is, and otherwise
    every index has to name a row (an index past the end is an
    [IndexError], the indexing error the specification mentions in its
    design notes). *)
Fixpoint select_rows {A} (d : list A) (indices : list nat)
    : result (list A) :=
  match indices with
  | [] => ok []
  | i :: rest =>
      match nth_error d i with
      | None => raise IndexError
      | Some row => try rows <- select_rows d rest in ok (row :: rows)
      end
  end.

Definition select {A} (d : list A) (indices : list nat) : result (list A) :=
  match d with
  | [] => ok d
  | _ :: _ => select_rows d indices
  end.

(** [range(n)] *)
Definition range (n : nat) : list nat := seq 0 n.

(** The size of the sample, [10000] in the source. *)
Definition sample_size : nat := 10000.

(** [line_counts[line.strip()] = line_counts.get(line.strip(), 0) + 1] *)
Definition count_line (line_counts : gmap str nat) (line : str)
    : gmap str nat :=
  <[strip line := (default 0%nat (line_counts !! strip line) + 1)%nat]>
    line_counts.

(** The body of the loop over the sample, on the pair
    (line_counts, seen_pages). *)
Definition scan_page (st : gmap str nat * gmap str bool) (p : page)
    : gmap str nat * gmap str bool :=
  let article := text p in
  if negb (default false (st.2 !! article))
  then (fold_left count_line (split nl article) st.1,
        <[article := true]> st.2)
  else st.

Definition scan (sample : list page) : gmap str nat * gmap str bool :=
  fold_left scan_page sample (∅, ∅).

(** [max(10, len(seen_pages) // 100)] *)
Definition thres_skip (seen_pages : gmap str bool) : nat :=
  Nat.max 10 (size seen_pages / 100).

(** [{line: True for line, ct in line_counts.items() if ct > thres}] *)
Definition lines_above (thres : nat) (line_counts : gmap str nat)
    : gmap str bool :=
  (fun _ : nat => true) <$> filter (fun kv => (thres < kv.2)%nat) line_counts.

Definition get_lines_to_skip (dset : dataset_dict) : result (gmap str bool) :=
  try dset_sample <- select (train dset) (range sample_size) in
  let st := scan dset_sample in
  ok (lines_above (thres_skip st.2) st.1).

(** ** The corpus writer *)

Inductive file_mode : Type := TextMode | BinaryMode.

(** An output file: what has been written to it is kept as the list of the
    entries whose serialization ([json.dumps(entry) + "\n"]) was written,
    one line each, in the order of the writes. *)
Record file : Type := File {
  f_name : str;
  f_mode : file_mode;
  f_lines : list entry;
  f_closed : bool
}.

(** [gzip.open(name, "w")] opens a binary stream, [open(name, "w",
    encoding="utf-8")] a text stream. The file can be created: an
    [OSError] of the file system is outside this model. *)
Definition open_file (name : str) (gzipped : bool) : file :=
  {| f_name := name;
     f_mode := if gzipped then BinaryMode else TextMode;
     f_lines := [];
     f_closed := false |}.

(** [f.write(data)] with [data] a [bytes] object (the script always
    encodes the line): a text stream refuses it with a [TypeError]. *)
Definition write_bytes (f : file) (line : entry) : result file :=
  match f_mode f with
  | BinaryMode =>
      ok {| f_name := f_name f; f_mode := f_mode f;
            f_lines := f_lines f ++ [line]; f_closed := f_closed f |}
  | TextMode => raise TypeError
  end.

Definition close_file (f : file) : file :=
  {| f_name := f_name f; f_mode := f_mode f;
     f_lines := f_lines f; f_closed := true |}.

Section Writer.

(** [str.lower]; its Unicode tables are not reproduced, the writer is
    modelled for any such function. *)
Variable lower : str -> str.

(** The text that the writer looks up in [duplicated]. *)
Definition norm (e : entry) : str := lower (strip (e_text e)).

(** The body of the loop of [make_seed_jsonl].  The dictionary
    [duplicated] is read here and written nowhere in the source. *)
Definition write_article (skip_lines_dict : gmap str bool) (min_chars : Z)
    (duplicated : gset str) (f : file) (article : page) : result file :=
  let processed_dct := process_page article skip_lines_dict in
  let txt := lower (strip (e_text processed_dct)) in
  if (min_chars <? Z.of_nat (length (e_text processed_dct)))%Z
     && bool_decide (txt ∉ duplicated)
  then write_bytes f processed_dct
  else ok f.

(** The loop: the file as the last completed write left it, and the
    exception that stopped the loop, if any. *)
Fixpoint write_articles (skip_lines_dict : gmap str bool) (min_chars : Z)
    (duplicated : gset str) (f : file) (dset : list page)
    : file * result unit :=
  match dset with
  | [] => (f, ok tt)
  | article :: rest =>
      match write_article skip_lines_dict min_chars duplicated f article with
      | inl e => (f, inl e)
      | inr f' => write_articles skip_lines_dict min_chars duplicated f' rest
      end
  end.

(** The file it leaves behind and the returned (file_name, repo_name). *)
Definition make_seed_jsonl (dset : dataset_dict) (language name : str)
    (skip_lines_dict : gmap str bool) (min_chars : Z) (gzipped : bool)
    : file * result (str * str) :=
  let repo_name :=
    lit "lm_" ++ language ++ lit "_pseudocrawl_" ++ name in
  let file_name :=
    repo_name ++ (if gzipped then lit ".jsonl.gz" else lit ".jsonl") in
  let f := open_file file_name gzipped in
  let duplicated : gset str := ∅ in
  match write_articles skip_lines_dict min_chars duplicated f (train dset) with
  | (f', inl e) => (f', inl e)
  | (f', inr _) => (close_file f', ok (file_name, repo_name))
  end.

(** The entries of the artifact. *)
Definition emitted (dset : dataset_dict) (language name : str)
    (skip_lines_dict : gmap str bool) (min_chars : Z) (gzipped : bool)
    : list entry :=
  f_lines (make_seed_jsonl dset language name skip_lines_dict
             min_chars gzipped).1.

End Writer.

(** ** Schema resolution *)

(** The values a feature description is made of. *)
Inductive pyval : Type :=
| PNone
| PInt (z : Z)
| PStr (s : str)
| PList (l : list pyval)
| PDict (items : list (str * pyval)).

(** [key in d] and [d[key]] on the items of a dictionary. *)
Fixpoint dict_get {V} (items : list (str * V)) (key : str) : option V :=
  match items with
  | [] => None
  | kv :: rest => if decide (kv.1 = key) then Some kv.2 else dict_get rest key
  end.

Definition getitem {V} (items : list (str * V)) (key : str) : result V :=
  match dict_get items key with
  | Some v => ok v
  | None => raise KeyError
  end.

(** What [convert_types] returns: an object of the library at a leaf, a
    dictionary, a list, or [None]. *)
Inductive resolved (T : Type) : Type :=
| RNone
| RFeature (t : T)
| RList (l : list (resolved T))
| RDict (items : list (str * resolved T)).

Arguments RNone {T}.
Arguments RFeature {T} t.
Arguments RList {T} l.
Arguments RDict {T} items.

Section ConvertTypes.

(** The [datasets] module: its objects, and [getattr(datasets, tag)],
    which gives a callable or fails. *)
Variable T : Type.
Variable datasets_getattr : pyval -> result (pyval -> result T).

Fixpoint convert_types (features : pyval) : result (resolved T) :=
  match features with
  | PDict items =>
      match dict_get items (lit "_type") with
      | Some tag =>
          try ctor <- datasets_getattr tag in
          try dtype <- getitem items (lit "dtype") in
          try t <- ctor dtype in
          ok (RFeature t)
      | None =>
          try items' <-
            (fix convert_items (l : list (str * pyval)) :=
               match l with
               | [] => ok []
               | kv :: rest =>
                   match kv with
                   | (key, value) =>
                       try value' <- convert_types value in
                       try rest' <- convert_items rest in
                       ok ((key, value') :: rest')
                   end
               end) items in
          ok (RDict items')
      end
  | PList l =>
      try l' <-
        (fix convert_all (l : list pyval) :=
           match l with
           | [] => ok []
           | value :: rest =>
               try value' <- convert_types value in
               try rest' <- convert_all rest in
               ok (value' :: rest')
           end) l in
      ok (RList l')
  | PNone | PInt _ | PStr _ => ok RNone
  end.

(** The two comprehensions of [convert_types], by name. *)
Definition convert_items (l : list (str * pyval))
    : result (list (str * resolved T)) :=
  (fix convert_items (l : list (str * pyval)) :=
     match l with
     | [] => ok []
     | kv :: rest =>
         match kv with
         | (key, value) =>
             try value' <- convert_types value in
             try rest' <- convert_items rest in
             ok ((key, value') :: rest')
         end
     end) l.

Definition convert_all (l : list pyval) : result (list (resolved T)) :=
  (fix convert_all (l : list pyval) :=
     match l with
     | [] => ok []
     | value :: rest =>
         try value' <- convert_types value in
         try rest' <- convert_all rest in
         ok (value' :: rest')
     end) l.

(** A leaf, that is a dictionary with the key "_type", that the library
    does not recognize: it has no attribute of the name of the type tag,
    or the attribute rejects the dtype of the leaf. *)
Definition unrecognized (items : list (str * pyval)) (tag : pyval) : Prop :=
  (exists e, datasets_getattr tag = inl e)
  \/ (exists ctor dtype e,
        datasets_getattr tag = inr ctor
        /\ dict_get items (lit "dtype") = Some dtype
        /\ ctor dtype = inl e).

(** A description in which such a leaf stands where a node is expected:
    at the root, as a value of a dictionary that is not a leaf, or as an
    element of a list. *)
Inductive has_unrecognized_leaf : pyval -> Prop :=
| unrecognized_here items tag :
    dict_get items (lit "_type") = Some tag ->
    unrecognized items tag ->
    has_unrecognized_leaf (PDict items)
| unrecognized_in_dict items key value :
    dict_get items (lit "_type") = None ->
    (key, value) ∈ items ->
    has_unrecognized_leaf value ->
    has_unrecognized_leaf (PDict items)
| unrecognized_in_list l value :
    value ∈ l ->
    has_unrecognized_leaf value ->
    has_unrecognized_leaf (PList l).

End ConvertTypes.

(** A node that is neither a dictionary nor a list. *)
Definition shapeless (d : pyval) : bool :=
  match d with
  | PNone | PInt _ | PStr _ => true
  | PList _ | PDict _ => false
  end.

(** The part of the [datasets] module that the feature table of the script
    uses, for the examples: the class [Value] and the names of the scalar
    types it accepts. *)
Module Datasets.

Inductive feature : Type := Value (dtype : str).

Definition dtypes : list str :=
  [lit "null"; lit "bool"; lit "int8"; lit "int16"; lit "int32";
   lit "int64"; lit "uint8"; lit "uint16"; lit "uint32"; lit "uint64";
   lit "float16"; lit "float32"; lit "float64"; lit "string";
   lit "large_string"; lit "binary"; lit "large_binary";
   lit "timestamp[s]"; lit "timestamp[ms]"; lit "timestamp[us]";
   lit "timestamp[ns]"].

Definition Value_init (dtype : pyval) : result feature :=
  match dtype with
  | PStr d => if bool_decide (d ∈ dtypes) then ok (Value d)
              else raise ValueError
  | _ => raise ValueError
  end.

Definition getattr (name : pyval) : result (pyval -> result feature) :=
  match name with
  | PStr n => if bool_decide (n = lit "Value") then ok Value_init
              else raise AttributeError
  | _ => raise TypeError
  end.

End Datasets.

(** The table [features] of the script. *)
Definition value (dtype : string) : pyval :=
  PDict [(lit "dtype", PStr (lit dtype)); (lit "id", PNone);
         (lit "_type", PStr (lit "Value"))].

Definition features : pyval :=
  PDict
    [(lit "HtmlPreprocessor_error", value "int64");
     (lit "HtmlPreprocessor_error_comment", value "string");
     (lit "content_languages", value "string");
     (lit "content_mime_detected", value "string");
     (lit "depth", value "int16");
     (lit "download_exception", value "string");
     (lit "external_urls", PList [value "string"]);
     (lit "fetch_redirect", value "string");
     (lit "fetch_status", value "int32");
     (lit "fetch_time", value "timestamp[ns]");
     (lit "html_error", value "string");
     (lit "html_footer", PList [value "string"]);
     (lit "html_head", PList [value "string"]);
     (lit "html_str", value "string");
     (lit "html_title", PList [value "string"]);
     (lit "metadata_html",
      PList
        [PDict
           [(lit "char_end_idx", value "int64");
            (lit "char_start_idx", value "int64");
            (lit "html_attrs",
             PDict [(lit "attrs", PList [value "string"]);
                    (lit "values", PList [value "string"])]);
            (lit "key", value "string");
            (lit "relative_end_pos", value "int64");
            (lit "relative_start_pos", value "int64");
            (lit "type", value "string");
            (lit "value", value "string")]]);
     (lit "seed_id", value "int32");
     (lit "text", value "string");
     (lit "url", value "string");
     (lit "url_host_name", value "string");
     (lit "url_host_registered_domain", value "string");
     (lit "url_host_tld", value "string");
     (lit "url_surtkey", value "string");
     (lit "warc_filename", value "string");
     (lit "warc_record_length", value "int32");
     (lit "warc_record_offset", value "int32")].

(** Descriptions used in the examples: a field whose description is a
    number, and a field whose type tag is misspelled. *)
Definition number_description : pyval :=
  PDict [(lit "url", value "string"); (lit "depth", PInt 16)].

Definition misspelled_description : pyval :=
  PDict [(lit "url", value "string");
         (lit "depth",
          PDict [(lit "dtype", PStr (lit "int16")); (lit "id", PNone);
                 (lit "_type", PStr (lit "Valeu"))])].

(** * Notions used by the statements *)

(** A text with no white space at its left end, at both ends. *)
Definition lstripped (s : str) : Prop := lstrip s = s.
Definition stripped (s : str) : Prop := lstripped s /\ lstripped (rev s).

(** The lines that remain when the empty lines at the start, at the end,
    at both ends are dropped. *)
Fixpoint drop_empty (ls : list str) : list str :=
  match ls with
  | [] => []
  | l :: ls' =>
      match l with
      | [] => drop_empty ls'
      | _ :: _ => ls
      end
  end.

Definition trim_tail (ls : list str) : list str := rev (drop_empty (rev ls)).
Definition trim (ls : list str) : list str := trim_tail (drop_empty ls).

(** The skip set maps a line to true. *)
Definition suppressed (skip_dict : gmap str bool) (line : str) : bool :=
  bool_decide (skip_dict !! line = Some true).

(** The specification's reading of the kept lines: the stripped lines of
    the article, without those the skip set maps to true, in order. *)
Definition kept_lines (skip_dict : gmap str bool) (article : str)
    : list str :=
  List.filter (fun line => negb (suppressed skip_dict line))
    (map strip (split nl article)).

(** How many lines of an article have the normalized text [line]. *)
Definition occurrences (line : str) (article : str) : nat :=
  length (List.filter (fun l => bool_decide (l = line))
            (map strip (split nl article))).

(** The distinct page texts of a sample. *)
Definition distinct_texts (sample : list page) : list str :=
  remove_dups (map text sample).

(** The count of a line in a frequency table, an absent line counting 0. *)
Definition count_of (line_counts : gmap str nat) (line : str) : nat :=
  default 0%nat (line_counts !! line).

(** The test of the writer's loop on a processed page. *)
Definition passes (lower : str -> str) (min_chars : Z)
    (duplicated : gset str) (e : entry) : bool :=
  (min_chars <? Z.of_nat (length (e_text e)))%Z
  && bool_decide (lower (strip (e_text e)) ∉ duplicated).

(** The processed input sequence. *)
Definition processed (skip_lines_dict : gmap str bool) (dset : list page)
    : list entry :=
  map (fun article => process_page article skip_lines_dict) dset.

(** ** Example data *)

(** A page of a site whose pages share the line "Subscribe" and have one
    line of their own. *)
Definition site_page (i : nat) : page :=
  {| url := lit "https://example.org/p";
     content_languages := lit "en";
     seed_id := 7;
     text := lit "Subscribe" ++ [nl] ++ [N.of_nat i + 65536] |}.

(** A seed of 500 pages, fewer than the sample, and one as large as the
    sample. *)
Definition small_seed : dataset_dict :=
  {| train := map site_page (seq 0 500) |}.

Definition large_seed : dataset_dict :=
  {| train := map site_page (seq 0 sample_size) |}.

(** [str.lower] on the letters A to Z; other code points are left as they
    are (used for examples on ASCII texts). *)
Definition ascii_lower (s : str) : str :=
  map (fun c => if (65 <=? c) && (c <=? 90) then c + 32 else c) s.

(** Two mirrors of one article, and a third page between them. *)
Definition article_text : str :=
  lit "The quick brown fox jumps over the lazy dog.".

Definition mirror_a : page :=
  {| url := lit "https://a.example.org/fox";
     content_languages := lit "en"; seed_id := 7; text := article_text |}.

Definition mirror_b : page :=
  {| url := lit "https://b.example.org/fox";
     content_languages := lit "en"; seed_id := 7; text := article_text |}.

Definition other_page : page :=
  {| url := lit "https://a.example.org/cat";
     content_languages := lit "en"; seed_id := 7;
     text := lit "A cat sat on the mat and looked at the quick fox." |}.

Definition short_page : page :=
  {| url := lit "https://a.example.org/short";
     content_languages := lit "en"; seed_id := 7; text := lit "Too short." |}.

(** Seeds built from these pages. *)
Definition mirrored_seed : dataset_dict :=
  {| train := [mirror_a; mirror_b] |}.

Definition interleaved_seed : dataset_dict :=
  {| train := [mirror_a; other_page; mirror_b] |}.

Definition mixed_seed : dataset_dict :=
  {| train := [short_page; mirror_a] |}.

(** The large seed with its pages in the opposite order. *)
Definition reversed_seed : dataset_dict :=
  {| train := rev (train large_seed) |}.

(** Two pages of the site, as a seed. *)
Definition site_seed : dataset_dict :=
  {| train := [site_page 0; site_page 1] |}.

(** ** Notions for schema resolution *)

Section ConvertTypesNotions.

Variable T : Type.
Variable datasets_getattr : pyval -> result (pyval -> result T).

(** A resolved schema has the shape of its description: [None] for a node
    that is neither a dictionary nor a list, an object of the library for
    a dictionary with the key "_type", the same keys in the same order for
    any other dictionary, the same number of elements for a list. *)
Inductive same_shape : pyval -> resolved T -> Prop :=
| shape_none d :
    shapeless d = true -> same_shape d RNone
| shape_leaf items tag t :
    dict_get items (lit "_type") = Some tag ->
    same_shape (PDict items) (RFeature t)
| shape_dict items items' :
    dict_get items (lit "_type") = None ->
    Forall2 (fun kv kv' => kv.1 = kv'.1 /\ same_shape kv.2 kv'.2)
      items items' ->
    same_shape (PDict items) (RDict items')
| shape_list l l' :
    Forall2 same_shape l l' ->
    same_shape (PList l) (RList l').

(** What the three calls at a leaf give. *)
Definition leaf_result (items : list (str * pyval)) (tag : pyval)
    : result T :=
  try ctor <- datasets_getattr tag in
  try dtype <- getitem items (lit "dtype") in
  ctor dtype.

(** A description in which resolution reaches a leaf whose calls fail. *)
Inductive reaches_failing_leaf : pyval -> Prop :=
| fails_here items tag e :
    dict_get items (lit "_type") = Some tag ->
    leaf_result items tag = inl e ->
    reaches_failing_leaf (PDict items)
| fails_in_dict items key value :
    dict_get items (lit "_type") = None ->
    (key, value) ∈ items ->
    reaches_failing_leaf value ->
    reaches_failing_leaf (PDict items)
| fails_in_list l value :
    value ∈ l ->
    reaches_failing_leaf value ->
    reaches_failing_leaf (PList l).

(** The exception that resolution raises: the one of the first leaf, in the
    order of the traversal, at which a call fails, that is the exception
    of the library when the attribute lookup or the construction fails and
    a [KeyError] when the leaf has no "dtype". The values and elements
    before that leaf resolve. *)
Inductive raises : pyval -> pyerr -> Prop :=
| raises_getattr items tag e :
    dict_get items (lit "_type") = Some tag ->
    datasets_getattr tag = inl e ->
    raises (PDict items) e
| raises_dtype items tag ctor :
    dict_get items (lit "_type") = Some tag ->
    datasets_getattr tag = inr ctor ->
    dict_get items (lit "dtype") = None ->
    raises (PDict items) KeyError
| raises_ctor items tag ctor dtype e :
    dict_get items (lit "_type") = Some tag ->
    datasets_getattr tag = inr ctor ->
    dict_get items (lit "dtype") = Some dtype ->
    ctor dtype = inl e ->
    raises (PDict items) e
| raises_in_dict items before key value after e :
    dict_get items (lit "_type") = None ->
    items = before ++ (key, value) :: after ->
    Forall (fun kv => exists r,
              convert_types T datasets_getattr kv.2 = inr r) before ->
    raises value e ->
    raises (PDict items) e
| raises_in_list l before value after e :
    l = before ++ value :: after ->
    Forall (fun v => exists r,
              convert_types T datasets_getattr v = inr r) before ->
    raises value e ->
    raises (PList l) e.

End ConvertTypesNotions.

(** ** The upload and the entry point *)

(** A call to the hub: [HfApi.create_repo] and [HfApi.upload_file] with
    the arguments that the script passes. *)
Inductive hub_call : Type :=
| CreateRepo (repo_id : str) (private : bool) (repo_type : str) (token : str)
| UploadFile (path_or_fileobj path_in_repo repo_id : str) (token : str)
    (repo_type : str).

(** The parsed command line. *)
Record arguments : Type := Args {
  a_seed_id : Z;
  a_language_code : str;
  a_name : str;
  a_pseudo_crawl_path : str;
  a_gzipped : bool;
  a_push_to_hub : bool;
  a_token : str
}.

(** How a run of [main] can end badly: the assertion on the token, an
    exception of [load_dataset], one of the exceptions above, an exception
    of the hub. *)
Inductive failure : Type :=
| AssertionError (message : str)
| LoadFailed
| Raised (e : pyerr)
| HubFailed.

(** What a run leaves outside: the files it has opened for writing and the
    calls it has made to the hub, in order. *)
Record world : Type := World {
  files : list file;
  calls : list hub_call
}.

(** [str(n)] for an integer. *)
Definition str_of_int (z : Z) : str :=
  lit (NilZero.string_of_int (Z.to_int z)).

Section Main.

Variable lower : str -> str.

(** [load_dataset("json", data_files=[path], features=final_features,
    cache_dir=cache_dir)], with [None] for an exception. *)
Variable load_dataset : str -> str -> option dataset_dict.

(** The hub: the answer to a call after the calls made before it, with
    [None] for an exception. *)
Variable hub : list hub_call -> hub_call -> option str.

Definition push_jsonl_to_hub (log : list hub_call)
    (file_name repo_name token : str) : list hub_call * option str :=
  let repo_id := lit "bigscience-catalogue-lm-data/" ++ repo_name in
  let create := CreateRepo repo_id true (lit "dataset") token in
  match hub log create with
  | None => (log ++ [create], None)
  | Some _ =>
      let upload :=
        UploadFile file_name file_name repo_id token (lit "dataset") in
      (log ++ [create; upload], hub (log ++ [create]) upload)
  end.

(** [main], from the parsed arguments on. *)
Definition main (args : arguments) : world * (failure + unit) :=
  if a_push_to_hub args && bool_decide (a_token args = [])
  then (World [] [],
        inl (AssertionError
               (lit "If you want the script to push to the hub, "
                ++ lit "you need to provide an authentication token")))
  else
    match load_dataset
            (a_pseudo_crawl_path args ++ lit "/seed_id="
             ++ str_of_int (a_seed_id args) ++ lit "/text__html/*.jsonl.gz")
            (lit "cache_seed_" ++ str_of_int (a_seed_id args)) with
    | None => (World [] [], inl LoadFailed)
    | Some dset =>
        match get_lines_to_skip dset with
        | inl e => (World [] [], inl (Raised e))
        | inr skip_lines_dict =>
            match make_seed_jsonl lower dset (a_language_code args)
                    (a_name args) skip_lines_dict 128 (a_gzipped args) with
            | (f, inl e) => (World [f] [], inl (Raised e))
            | (f, inr (file_name, repo_name)) =>
                if a_push_to_hub args
                then
                  match push_jsonl_to_hub [] file_name repo_name
                          (a_token args) with
                  | (log, None) => (World [f] log, inl HubFailed)
                  | (log, Some _) => (World [f] log, inr tt)
                  end
                else (World [f] [], inr tt)
            end
        end
    end.

End Main.

(** Arguments and surroundings for the examples: a hub that accepts every
    call, and a store with one seed. *)
Definition example_args (gzipped push_to_hub : bool) : arguments :=
  {| a_seed_id := 7;
     a_language_code := lit "en";
     a_name := lit "example";
     a_pseudo_crawl_path := lit "pseudo_crawl";
     a_gzipped := gzipped;
     a_push_to_hub := push_to_hub;
     a_token := lit "secret" |}.

Definition accepting_hub (log : list hub_call) (c : hub_call) : option str :=
  Some (lit "https://huggingface.co").

Definition store (seed : dataset_dict) (path cache_dir : str)
    : option dataset_dict :=
  if bool_decide (path = lit "pseudo_crawl/seed_id=7/text__html/*.jsonl.gz")
  then Some seed else None.

Definition empty_seed : dataset_dict := {| train := [] |}.

(** ** pii-manager/setup.py: the requirements file *)

(** The carriage return. *)
Definition cr : N := 13.

(** A text file opened with [io.open(filename, "r")] is read with
    universal newlines: "\r\n" and "\r" are given as "\n". *)
Fixpoint universal_newlines (s : str) : str :=
  match s with
  | [] => []
  | c :: r =>
      if c =? cr
      then nl :: match r with
                 | [] => []
                 | d :: r' =>
                     if d =? nl then universal_newlines r'
                     else universal_newlines r
                 end
      else c :: universal_newlines r
  end.

(** Iterating over the file gives its lines, each with its "\n" when it
    has one. *)
Fixpoint file_lines (s : str) : list str :=
  match s with
  | [] => []
  | c :: r =>
      if c =? nl then [nl] :: file_lines r
      else match file_lines r with
           | [] => [[c]]
           | l :: ls => (c :: l) :: ls
           end
  end.

(** [line and line[0] != "#"] *)
Definition requirement_line (line : str) : bool :=
  match line with
  | [] => false
  | c :: _ => negb (c =? 35)
  end.

(** [requirements(filename)] on a file system that maps the names of the
    files to their contents; [None] when the file cannot be opened. *)
Definition requirements (fs : gmap str str) (filename : str)
    : option (list str) :=
  match fs !! filename with
  | None => None
  | Some content =>
      Some (map strip
              (List.filter requirement_line
                 (file_lines (universal_newlines content))))
  end.

(** A requirements file with a comment, a Windows line end, a blank line
    and an indented comment. *)
Definition example_requirements : str :=
  lit "# runtime" ++ [cr; nl] ++ lit "regex >= 2021.4 " ++ [nl; nl]
  ++ lit "  # tests" ++ [nl] ++ lit "pytest".

Definition example_fs : gmap str str :=
  {[ lit "requirements.txt" := example_requirements ]}.

(** A page of more than 128 characters, and a seed of as many copies of it
    as the sample has pages. *)
Definition long_page : page :=
  {| url := lit "https://a.example.org/long";
     content_languages := lit "en"; seed_id := 7;
     text := article_text ++ lit " " ++ article_text ++ lit " "
             ++ article_text |}.

Definition repeated_seed : dataset_dict :=
  {| train := repeat long_page sample_size |}.

(** * Properties *)

(** ** Stripping, splitting and joining *)

Section StringFacts.

Implicit Types (s l : str) (ls : list str) (c : N).

Lemma is_space_nl : is_space nl = true.
Proof. reflexivity. Qed.

Lemma lstripped_head s c : lstripped (c :: s) -> is_space c = false.
Proof.
  unfold lstripped; simpl. destruct (is_space c) eqn:E; [|done].
  intros H. assert (Hlen : (length (lstrip s) <= length s)%nat).
  { clear. induction s as [|d s IH]; simpl; [lia|].
    destruct (is_space d); simpl; lia. }
  rewrite H in Hlen. simpl in Hlen. lia.
Qed.

Lemma lstripped_cons s c : is_space c = false -> lstripped (c :: s).
Proof. unfold lstripped; simpl. by intros ->. Qed.

Lemma lstrip_lstripped s : lstripped (lstrip s).
Proof.
  induction s as [|c s IH]; [done|]. simpl.
  destruct (is_space c) eqn:E; [done|]. by apply lstripped_cons.
Qed.

Lemma lstrip_app_keep l c s :
  is_space c = false -> lstrip (l ++ c :: s) = lstrip l ++ c :: s.
Proof.
  intros Hc. induction l as [|d l IH]; simpl; [by rewrite Hc|].
  by destruct (is_space d).
Qed.

Lemma rstrip_cons_keep c s :
  is_space c = false -> rstrip (c :: s) = c :: rstrip s.
Proof.
  intros Hc. unfold rstrip. simpl rev at 2.
  rewrite (lstrip_app_keep _ c []) by done.
  by rewrite rev_app_distr.
Qed.

Lemma strip_stripped s : stripped (strip s).
Proof.
  split.
  - unfold strip. pose proof (lstrip_lstripped s) as H.
    destruct (lstrip s) as [|c r]; [done|].
    apply lstripped_head in H as Hc.
    rewrite rstrip_cons_keep by done. by apply lstripped_cons.
  - unfold strip, rstrip. rewrite rev_involutive. apply lstrip_lstripped.
Qed.

Lemma stripped_strip s : stripped s -> strip s = s.
Proof.
  intros [H1 H2]. unfold strip, rstrip. rewrite H1, H2.
  apply rev_involutive.
Qed.

Lemma strip_idemp s : strip (strip s) = strip s.
Proof. apply stripped_strip, strip_stripped. Qed.

Lemma stripped_nil : stripped [].
Proof. by split. Qed.

(** Stripping only removes characters. *)
Lemma elem_of_lstrip c s : c ∈ lstrip s -> c ∈ s.
Proof.
  induction s as [|d s IH]; simpl; [done|].
  destruct (is_space d); [|done]. intros H. right. by apply IH.
Qed.

Lemma elem_of_strip c s : c ∈ strip s -> c ∈ s.
Proof.
  unfold strip, rstrip. intros H.
  apply elem_of_lstrip. apply list_elem_of_In, in_rev, list_elem_of_In.
  apply elem_of_lstrip. by apply list_elem_of_In, in_rev, list_elem_of_In in H.
Qed.

(** The ends of a stripped text, as the claim words it. *)
Lemma stripped_ends s :
  stripped s ->
  (forall c, head s = Some c -> is_space c = false) /\
  (forall c, last s = Some c -> is_space c = false).
Proof.
  intros [H1 H2]. split; intros c Hc.
  - destruct s as [|d s]; [done|]. simpl in Hc. simplify_eq.
    by eapply lstripped_head.
  - rewrite <- (rev_involutive s) in Hc.
    destruct (rev s) as [|d r]; [done|].
    simpl in Hc. rewrite last_snoc in Hc. simplify_eq.
    by eapply lstripped_head.
Qed.

End StringFacts.

Section LineFacts.

Implicit Types (s l : str) (ls : list str) (c : N).

Lemma split_nonempty sep s : split sep s <> [].
Proof.
  destruct s as [|c s]; simpl; [done|].
  destruct (c =? sep); [done|]. by destruct (split sep s).
Qed.

(** A field of [split] does not contain the separator. *)
Lemma split_fields sep s : Forall (fun l => sep ∉ l) (split sep s).
Proof.
  induction s as [|c s IH]; simpl.
  - repeat constructor. apply not_elem_of_nil.
  - destruct (c =? sep) eqn:E.
    + constructor; [apply not_elem_of_nil | done].
    + apply N.eqb_neq in E.
      destruct (split sep s) as [|l ls].
      * repeat constructor. rewrite not_elem_of_cons.
        split; [congruence | apply not_elem_of_nil].
      * apply Forall_cons in IH as [Hl Hls]. constructor; [|done].
        rewrite not_elem_of_cons. split; [congruence | done].
Qed.

Lemma split_one sep l : sep ∉ l -> split sep l = [l].
Proof.
  induction l as [|c l IH]; [done|]. rewrite not_elem_of_cons.
  intros [Hc Hl]. simpl. rewrite IH by done.
  destruct (N.eqb_spec c sep); [congruence | done].
Qed.

Lemma split_app sep l s :
  sep ∉ l -> split sep (l ++ sep :: s) = l :: split sep s.
Proof.
  induction l as [|c l IH]; simpl.
  - by rewrite N.eqb_refl.
  - rewrite not_elem_of_cons. intros [Hc Hl]. rewrite IH by done.
    destruct (N.eqb_spec c sep); [congruence | done].
Qed.

(** Joining fields that are free of the separator and splitting again
    gives the fields back. *)
Lemma split_join sep ls :
  ls <> [] -> Forall (fun l => sep ∉ l) ls ->
  split sep (join [sep] ls) = ls.
Proof.
  induction ls as [|l ls IH]; [done|]. intros _ H.
  inversion H as [|? ? Hl Hls]; subst.
  destruct ls as [|l' ls]; simpl.
  - by apply split_one.
  - rewrite split_app by done. f_equal. by apply IH.
Qed.

Lemma join_snoc sep ls l :
  ls <> [] -> join sep (ls ++ [l]) = join sep ls ++ sep ++ l.
Proof.
  induction ls as [|l1 ls IH]; [done|]. intros _.
  destruct ls as [|l2 ls]; [done|].
  change (join sep ((l1 :: l2 :: ls) ++ [l]))
    with (l1 ++ sep ++ join sep ((l2 :: ls) ++ [l])).
  rewrite IH by done.
  change (join sep (l1 :: l2 :: ls)) with (l1 ++ sep ++ join sep (l2 :: ls)).
  by rewrite <- !app_assoc.
Qed.

Lemma rev_join c ls : rev (join [c] ls) = join [c] (rev (map (@rev N) ls)).
Proof.
  induction ls as [|l ls IH]; [done|].
  destruct ls as [|l' ls]; [done|].
  change (join [c] (l :: l' :: ls)) with (l ++ [c] ++ join [c] (l' :: ls)).
  rewrite !rev_app_distr, IH.
  change (rev (map (@rev N) (l :: l' :: ls)))
    with (rev (map (@rev N) (l' :: ls)) ++ [rev l]).
  rewrite join_snoc; [by rewrite <- app_assoc|].
  simpl. by destruct (rev (map (@rev N) ls)).
Qed.

Lemma Forall_drop_empty (P : str -> Prop) ls :
  Forall P ls -> Forall P (drop_empty ls).
Proof.
  induction 1 as [|l ls Hl Hls IH]; simpl; [done|].
  destruct l; [done | by constructor].
Qed.

Lemma Forall_trim (P : str -> Prop) ls : Forall P ls -> Forall P (trim ls).
Proof.
  intros H. unfold trim, trim_tail.
  apply Forall_rev, Forall_drop_empty, Forall_rev.
  by apply Forall_drop_empty.
Qed.

Lemma drop_empty_map_rev ls :
  drop_empty (map (@rev N) ls) = map (@rev N) (drop_empty ls).
Proof.
  induction ls as [|l ls IH]; [done|]. simpl.
  destruct l as [|c l]; [done|]. simpl.
  destruct (rev l ++ [c]) eqn:E; [by destruct (rev l)|done].
Qed.

Lemma lstrip_join ls :
  Forall lstripped ls ->
  lstrip (join [nl] ls) = join [nl] (drop_empty ls).
Proof.
  induction 1 as [|l ls Hl Hls IH]; [done|].
  destruct l as [|c l].
  - destruct ls as [|l' ls]; [done|].
    change (join [nl] ([] :: l' :: ls)) with (nl :: join [nl] (l' :: ls)).
    transitivity (lstrip (join [nl] (l' :: ls))); [done|]. by rewrite IH.
  - apply lstripped_head in Hl.
    destruct ls as [|l' ls]; simpl; by rewrite Hl.
Qed.

Lemma rstrip_join ls :
  Forall (fun l => lstripped (rev l)) ls ->
  rstrip (join [nl] ls) = join [nl] (trim_tail ls).
Proof.
  intros H. unfold rstrip, trim_tail.
  rewrite rev_join, lstrip_join, rev_join.
  - rewrite <- (map_rev (@rev N) ls), drop_empty_map_rev, map_map.
    do 2 f_equal.
    etransitivity; [|apply map_id].
    apply map_ext. intros; apply rev_involutive.
  - apply Forall_rev. by apply Forall_map.
Qed.

(** Stripping a text whose lines are stripped drops the empty lines at
    its two ends and nothing else. *)
Lemma strip_join ls :
  Forall stripped ls -> strip (join [nl] ls) = join [nl] (trim ls).
Proof.
  intros H. unfold strip, trim.
  rewrite lstrip_join by (eapply Forall_impl; [done | by intros ? []]).
  apply rstrip_join, Forall_drop_empty.
  eapply Forall_impl; [done | by intros ? []].
Qed.

End LineFacts.

(** ** The page processor *)

Section PageProcessor.

Variable skip_dict : gmap str bool.

Lemma flagged_suppressed line :
  flagged skip_dict line = suppressed skip_dict line.
Proof.
  unfold flagged, suppressed.
  destruct (skip_dict !! line) as [[]|]; by simpl.
Qed.

(** The two accumulators of the loop are the two filters of the lines. *)
Lemma filter_loop lines keep skip :
  fold_left (filter_step skip_dict) lines (keep, skip)
  = (keep ++ List.filter (fun l => negb (suppressed skip_dict l)) lines,
     skip ++ List.filter (suppressed skip_dict) lines).
Proof.
  revert keep skip.
  induction lines as [|l lines IH]; intros keep skip; simpl.
  - by rewrite !app_nil_r.
  - unfold filter_step at 2. rewrite flagged_suppressed.
    destruct (suppressed skip_dict l); simpl; rewrite IH, <- app_assoc; done.
Qed.

Lemma filter_lines_kept article :
  (filter_lines article skip_dict).1
  = strip (join [nl] (kept_lines skip_dict article)).
Proof.
  unfold filter_lines. simpl. by rewrite filter_loop.
Qed.

Lemma elem_of_kept_lines l article :
  l ∈ kept_lines skip_dict article ->
  suppressed skip_dict l = false /\
  exists l', l = strip l' /\ l' ∈ split nl article.
Proof.
  unfold kept_lines. rewrite list_elem_of_In, filter_In, in_map_iff.
  intros [(l' & <- & Hl') Hs]. split; [by destruct (suppressed skip_dict _)|].
  exists l'. by rewrite list_elem_of_In.
Qed.

Lemma kept_lines_stripped article :
  Forall stripped (kept_lines skip_dict article).
Proof.
  apply Forall_forall. intros l (_ & l' & -> & _)%elem_of_kept_lines.
  apply strip_stripped.
Qed.

Lemma kept_lines_no_nl article :
  Forall (fun l => nl ∉ l) (kept_lines skip_dict article).
Proof.
  apply Forall_forall. intros l (_ & l' & -> & Hl')%elem_of_kept_lines.
  intros H%elem_of_strip.
  pose proof (split_fields nl article) as Hf.
  rewrite Forall_forall in Hf. by apply (Hf l').
Qed.

Lemma kept_lines_unsuppressed article :
  Forall (fun l => suppressed skip_dict l = false)
    (kept_lines skip_dict article).
Proof.
  apply Forall_forall. by intros l [? _]%elem_of_kept_lines.
Qed.

(** The lines of the text that [filter_lines] returns are kept lines of
    the article: a second pass finds them as they are. *)
Lemma kept_lines_of_kept_text article :
  trim (kept_lines skip_dict article) <> [] ->
  kept_lines skip_dict (join [nl] (trim (kept_lines skip_dict article)))
  = trim (kept_lines skip_dict article).
Proof.
  intros Hne. unfold kept_lines at 1.
  rewrite split_join;
    [|done|by apply Forall_trim, kept_lines_no_nl].
  pose proof (Forall_trim _ _ (kept_lines_stripped article)) as Hs.
  pose proof (Forall_trim _ _ (kept_lines_unsuppressed article)) as Hu.
  induction (trim (kept_lines skip_dict article)) as [|l ls IH]; [done|].
  apply Forall_cons in Hs as [Hl Hs]. apply Forall_cons in Hu as [Hl' Hu].
  simpl. rewrite (stripped_strip l), Hl' by done. simpl.
  destruct ls as [|l2 ls]; [done|]. f_equal. by apply IH.
Qed.

End PageProcessor.

(** C6. For every page and skip set, the text of [process_page] is the
    lines of the page text (split on newline, each stripped) without
    exactly those lines that the skip set maps to true, the others in their
    order, joined with newlines and stripped; its meta is the projection
    url, content_languages, seed_id of the page, unchanged. *)
Theorem process_page_text_and_meta (p : page) (skip_dict : gmap str bool) :
  e_text (process_page p skip_dict)
  = strip (join [nl]
      (List.filter
         (fun line => negb (bool_decide (skip_dict !! line = Some true)))
         (map strip (split nl (text p)))))
  /\ e_meta (process_page p skip_dict)
     = {| m_url := url p;
          m_content_languages := content_languages p;
          m_seed_id := seed_id p |}.
Proof.
  split; [|reflexivity].
  unfold process_page; cbn [e_text]. apply filter_lines_kept.
Qed.

(** C9. For every page and skip set, the text of [process_page] has no
    leading and no trailing white space: stripping it again changes
    neither the text nor its length, so the writer's length check sees the
    length of the stripped text. *)
Theorem process_page_text_stripped (p : page) (skip_dict : gmap str bool) :
  let t := e_text (process_page p skip_dict) in
  from_option is_space false (head t) = false
  /\ from_option is_space false (last t) = false
  /\ strip t = t
  /\ length (strip t) = length t.
Proof.
  intros t.
  assert (Hs : stripped t).
  { subst t. unfold process_page, filter_lines; cbn [e_text fst].
    apply strip_stripped. }
  destruct (stripped_ends t Hs) as [Hh Hl].
  pose proof (stripped_strip t Hs) as Heq.
  repeat split.
  - destruct (head t) as [c|]; [by apply Hh | done].
  - destruct (last t) as [c|]; [by apply Hl | done].
  - done.
  - by rewrite Heq.
Qed.

(** C10. Boilerplate stripping is idempotent: for every article and skip
    set, [filter_lines] applied to the kept text it produced returns that
    kept text. *)
Theorem filter_lines_idempotent (article : str) (skip_dict : gmap str bool) :
  (filter_lines (filter_lines article skip_dict).1 skip_dict).1
  = (filter_lines article skip_dict).1.
Proof.
  rewrite (filter_lines_kept skip_dict article).
  rewrite strip_join by apply kept_lines_stripped.
  rewrite filter_lines_kept.
  destruct (decide (trim (kept_lines skip_dict article) = [])) as [E|Hne].
  - rewrite E. cbn [join]. unfold kept_lines. cbn.
    by destruct (suppressed skip_dict []).
  - rewrite kept_lines_of_kept_text by done.
    rewrite <- strip_join by apply kept_lines_stripped.
    apply strip_idemp.
Qed.

(** ** The boilerplate line detector *)

Section Detector.

Local Open Scope nat_scope.

Implicit Types (sample : list page) (line article : str).

(** [select] on a dataset that has the rows: the first [n] of them. *)
Lemma select_rows_prefix {A} (pre d : list A) n :
  n <= length d ->
  select_rows (pre ++ d) (seq (length pre) n) = ok (take n d).
Proof.
  revert pre d. induction n as [|n IH]; intros pre d Hn; [done|].
  destruct d as [|a d]; simpl in Hn; [lia|]. simpl.
  rewrite nth_error_app2, Nat.sub_diag by lia. simpl.
  replace (pre ++ a :: d) with ((pre ++ [a]) ++ d) by by rewrite <- app_assoc.
  replace (S (length pre)) with (length (pre ++ [a]))
    by (rewrite length_app; simpl; lia).
  rewrite IH by lia. done.
Qed.

Lemma select_range {A} (d : list A) n :
  n <= length d -> select d (range n) = ok (take n d).
Proof.
  intros Hn. unfold select, range. destruct d as [|a d].
  - simpl in Hn. by replace n with 0 by lia.
  - by apply (select_rows_prefix []).
Qed.

(** A dataset with rows, but fewer than asked for, is refused. *)
Lemma select_rows_short {A} (pre d : list A) n :
  length d < n ->
  select_rows (pre ++ d) (seq (length pre) n) = raise IndexError.
Proof.
  revert pre d. induction n as [|n IH]; intros pre d Hn; [lia|].
  simpl. rewrite nth_error_app2, Nat.sub_diag by lia.
  destruct d as [|a d]; simpl; [done|]. simpl in Hn.
  replace (pre ++ a :: d) with ((pre ++ [a]) ++ d) by by rewrite <- app_assoc.
  replace (S (length pre)) with (length (pre ++ [a]))
    by (rewrite length_app; simpl; lia).
  rewrite IH by lia. done.
Qed.

Lemma select_range_short {A} (d : list A) n :
  0 < length d < n -> select d (range n) = raise IndexError.
Proof.
  intros [H0 Hn]. unfold select, range.
  destruct d as [|a d]; [simpl in H0; lia|].
  by apply (select_rows_short []).
Qed.

(** The inner loop adds the occurrences of each line of the article. *)
Lemma count_lines (lines : list str) (line_counts : gmap str nat) line :
  count_of (fold_left count_line lines line_counts) line
  = count_of line_counts line
    + length (List.filter (fun l => bool_decide (l = line)) (map strip lines)).
Proof.
  revert line_counts. induction lines as [|l lines IH]; intros lc; simpl.
  - lia.
  - rewrite IH. unfold count_line, count_of at 1.
    destruct (decide (strip l = line)) as [->|Hne].
    + rewrite lookup_insert_eq, bool_decide_eq_true_2 by done.
      unfold count_of; simpl. lia.
    + rewrite lookup_insert_ne, bool_decide_eq_false_2 by done.
      done.
Qed.

Lemma remove_dups_snoc (l : list str) (t : str) :
  remove_dups (l ++ [t])
  ≡ₚ if decide (t ∈ l) then remove_dups l else t :: remove_dups l.
Proof.
  apply NoDup_Permutation.
  - apply NoDup_remove_dups.
  - destruct (decide (t ∈ l)); [apply NoDup_remove_dups|].
    apply NoDup_cons. split; [by rewrite elem_of_remove_dups|].
    apply NoDup_remove_dups.
  - intros x. rewrite elem_of_remove_dups, elem_of_app, list_elem_of_singleton.
    destruct (decide (t ∈ l)).
    + rewrite elem_of_remove_dups. split; [by intros [?| ->] | by left].
    + rewrite elem_of_cons, elem_of_remove_dups. tauto.
Qed.

(** What the two tables hold after the loop over a sample. *)
Lemma scan_invariant sample :
  (forall t, (scan sample).2 !! t
             = if decide (t ∈ map text sample) then Some true else None)
  /\ size (scan sample).2 = length (distinct_texts sample)
  /\ (forall line, count_of (scan sample).1 line
                   = sum_list_with (occurrences line) (distinct_texts sample)).
Proof.
  unfold distinct_texts.
  induction sample as [|p sample IH] using rev_ind.
  - by split; [|split].
  - destruct IH as (Hseen & Hsize & Hcount).
    unfold scan in *. rewrite fold_left_app. cbn [fold_left].
    set (st := fold_left scan_page sample (∅, ∅)) in *.
    rewrite map_app; cbn [map].
    pose proof (remove_dups_snoc (map text sample) (text p)) as Hperm.
    unfold scan_page. rewrite Hseen.
    destruct (decide (text p ∈ map text sample)) as [Hin|Hout]; cbn.
    + split; [|split].
      * intros t. rewrite Hseen.
        destruct (decide (t ∈ map text sample)) as [Ht|Ht].
        -- rewrite decide_True; [done|]. rewrite elem_of_app; by left.
        -- rewrite decide_False; [done|].
           rewrite elem_of_app, list_elem_of_singleton.
           by intros [?| ->].
      * by rewrite Hsize, Hperm.
      * intros line. by rewrite Hcount, Hperm.
    + split; [|split].
      * intros t. destruct (decide (text p = t)) as [<-|Hne].
        -- rewrite lookup_insert_eq, decide_True; [done|].
           rewrite elem_of_app, list_elem_of_singleton; by right.
        -- rewrite lookup_insert_ne, Hseen by done.
           destruct (decide (t ∈ map text sample)) as [Ht|Ht].
           ++ rewrite decide_True; [done|]. rewrite elem_of_app; by left.
           ++ rewrite decide_False; [done|].
              rewrite elem_of_app, list_elem_of_singleton.
              by intros [?| ->].
      * rewrite map_size_insert_None, Hsize, Hperm; [done|].
        rewrite Hseen. by rewrite decide_False.
      * intros line. rewrite count_lines, Hcount, Hperm. cbn.
        unfold occurrences. lia.
Qed.

(** The lines of the returned dictionary. *)
Lemma lines_above_lookup (thres : nat) (line_counts : gmap str nat) line :
  (lines_above thres line_counts !! line = Some true
   <-> thres < count_of line_counts line)
  /\ (count_of line_counts line <= thres ->
      lines_above thres line_counts !! line = None).
Proof.
  unfold lines_above, count_of. rewrite lookup_fmap.
  destruct (line_counts !! line) as [ct|] eqn:E; simpl.
  - destruct (decide (thres < ct)) as [Hlt|Hge].
    + rewrite (map_lookup_filter_Some_2 _ _ line ct) by done. simpl.
      split; [done | lia].
    + rewrite map_lookup_filter_None_2;
        [simpl; split; [split|]; [done|lia|done]|].
      right. intros ct' Hct'. simpl. naive_solver.
  - rewrite map_lookup_filter_None_2 by (by left). simpl.
    split; [split|]; [done|lia|done].
Qed.

(** The detector returns on a dataset that has the rows of the sample. *)
Lemma get_lines_to_skip_sample dset :
  train dset = [] \/ sample_size <= length (train dset) ->
  get_lines_to_skip dset
  = let st := scan (take sample_size (train dset)) in
    ok (lines_above (thres_skip st.2) st.1).
Proof.
  intros H. unfold get_lines_to_skip.
  destruct H as [H|H].
  - by rewrite H.
  - by rewrite select_range.
Qed.

(** It raises on any other dataset. *)
Lemma get_lines_to_skip_short dset :
  0 < length (train dset) < sample_size ->
  get_lines_to_skip dset = raise IndexError.
Proof.
  intros H. unfold get_lines_to_skip. by rewrite select_range_short.
Qed.

End Detector.

(** On a site of as many pages as the sample, the shared line is the only
    line above the threshold. *)
Example get_lines_to_skip_large_seed :
  get_lines_to_skip large_seed = inr {[ lit "Subscribe" := true ]}.
Proof. vm_compute. reflexivity. Qed.

(** C2 (refuted by the code). With 500 pages and the sample of 10000 that
    the source asks for, the detector does not use the 500 pages: it
    raises an [IndexError]. *)
Theorem get_lines_to_skip_small_seed_raises :
  length (train small_seed) = 500%nat
  /\ get_lines_to_skip small_seed = inl IndexError.
Proof.
  split; [reflexivity|].
  apply get_lines_to_skip_short. vm_compute. lia.
Qed.

(** C4. Whenever the detector has its sample, it returns a skip set that
    maps a line to true if and only if the count of the line in the
    frequency table exceeds max(10, unique_count // 100), unique_count
    being the number of distinct page texts of the sample; a line whose
    count is at most the threshold is absent. *)
Theorem get_lines_to_skip_threshold (dset : dataset_dict) :
  train dset = [] \/ (sample_size <= length (train dset))%nat ->
  exists skip : gmap str bool,
    get_lines_to_skip dset = inr skip /\
    forall line : str,
      let sample := take sample_size (train dset) in
      let unique_count := length (distinct_texts sample) in
      let threshold := Nat.max 10 (unique_count / 100) in
      let count := count_of (scan sample).1 line in
      (skip !! line = Some true <-> (threshold < count)%nat)
      /\ ((count <= threshold)%nat -> skip !! line = None).
Proof.
  intros H. rewrite get_lines_to_skip_sample by done. cbn zeta.
  eexists; split; [reflexivity|]. intros line.
  destruct (scan_invariant (take sample_size (train dset)))
    as (_ & Hsize & _).
  unfold thres_skip. rewrite Hsize. apply lines_above_lookup.
Qed.

Lemma get_lines_to_skip_threshold_witness :
  exists skip : gmap str bool,
    get_lines_to_skip large_seed = inr skip /\
    forall line : str,
      let sample := take sample_size (train large_seed) in
      let unique_count := length (distinct_texts sample) in
      let threshold := Nat.max 10 (unique_count / 100) in
      let count := count_of (scan sample).1 line in
      (skip !! line = Some true <-> (threshold < count)%nat)
      /\ ((count <= threshold)%nat -> skip !! line = None).
Proof.
  apply (get_lines_to_skip_threshold large_seed).
  right. apply Nat.leb_le. vm_compute. reflexivity.
Defined.

(** C5. For every sample, the count of a normalized line in the frequency
    table is the number of its occurrences summed over the distinct page
    texts of the sample: a page whose text repeats an earlier one adds
    nothing. *)
Theorem scan_counts_distinct_pages (sample : list page) (line : str) :
  count_of (scan sample).1 line
  = sum_list_with (occurrences line) (remove_dups (map text sample)).
Proof. by destruct (scan_invariant sample) as (_ & _ & ->). Qed.

(** Copies of one page count as one page. *)
Lemma scan_counts_copies (p : page) (n : nat) (line : str) :
  count_of (scan (repeat p (S n))).1 line = occurrences line (text p).
Proof.
  destruct (scan_invariant (repeat p (S n))) as (_ & _ & ->).
  unfold distinct_texts.
  assert (E : remove_dups (map text (repeat p (S n))) = [text p]).
  { induction n as [|n IH]; [done|].
    change (map text (repeat p (S (S n))))
      with (text p :: map text (repeat p (S n))).
    cbn [remove_dups].
    destruct (decide_rel elem_of (text p) (map text (repeat p (S n))))
      as [|Hn]; [done|].
    destruct Hn. simpl. by left. }
  rewrite E. simpl. lia.
Qed.

(** ** The corpus writer *)

Section WriterFacts.

Variable lower : str -> str.
Variable skip_lines_dict : gmap str bool.
Variable min_chars : Z.

(** On a binary stream every write succeeds: the loop appends the
    processed pages that pass the test, in order. *)
Lemma write_articles_binary duplicated name lines closed dset :
  write_articles lower skip_lines_dict min_chars duplicated
    (File name BinaryMode lines closed) dset
  = (File name BinaryMode
       (lines ++ List.filter (passes lower min_chars duplicated)
                   (processed skip_lines_dict dset)) closed,
     ok tt).
Proof.
  revert lines. induction dset as [|article dset IH]; intros lines; simpl.
  - by rewrite app_nil_r.
  - unfold write_article, passes.
    destruct (_ && _); simpl.
    + unfold write_bytes; simpl. rewrite IH. by rewrite <- app_assoc.
    + by rewrite IH.
Qed.

(** On a text stream nothing is ever written. *)
Lemma write_articles_text duplicated name lines closed dset :
  (write_articles lower skip_lines_dict min_chars duplicated
     (File name TextMode lines closed) dset).1
  = File name TextMode lines closed.
Proof.
  induction dset as [|article dset IH]; simpl; [done|].
  unfold write_article. by destruct (_ && _).
Qed.

Lemma passes_empty e :
  passes lower min_chars ∅ e = (min_chars <? Z.of_nat (length (e_text e)))%Z.
Proof.
  unfold passes. rewrite bool_decide_eq_true_2 by apply not_elem_of_empty.
  apply andb_true_r.
Qed.

(** The artifact, in closed form. *)
Lemma emitted_eq dset language name gzipped :
  emitted lower dset language name skip_lines_dict min_chars gzipped
  = if gzipped
    then List.filter
           (fun e => (min_chars <? Z.of_nat (length (e_text e)))%Z)
           (processed skip_lines_dict (train dset))
    else [].
Proof.
  unfold emitted, make_seed_jsonl, open_file. destruct gzipped.
  - rewrite write_articles_binary. simpl.
    apply filter_ext. intros e. apply passes_empty.
  - cbv beta iota zeta.
    match goal with
    | |- context [write_articles _ _ _ ?d (File ?n _ _ _) ?ps] =>
        pose proof (write_articles_text d n [] false ps) as E
    end.
    destruct (write_articles _ _ _ _ _ _) as [f' [e|u]];
      cbn [fst] in E; by subst f'.
Qed.

(** Emission keeps the order of the input. *)
Lemma emitted_sublist dset language name gzipped :
  sublist
    (emitted lower dset language name skip_lines_dict min_chars gzipped)
    (processed skip_lines_dict (train dset)).
Proof.
  rewrite emitted_eq. destruct gzipped; [|apply sublist_nil_l].
  induction (processed skip_lines_dict (train dset)) as [|e l IH];
    simpl; [done|].
  destruct (_ <? _)%Z; by constructor.
Qed.

End WriterFacts.

(** C7. Every entry of the artifact is the processed form of a page of the
    input, and the length of its text, the processed text and not its
    lower-cased form, exceeds [min_chars]; so a page whose processed text
    has at most [min_chars] characters is never emitted. *)
Theorem emitted_text_exceeds_min_chars (lower : str -> str)
    (dset : dataset_dict) (language name : str)
    (skip_lines_dict : gmap str bool) (min_chars : Z) (gzipped : bool)
    (e : entry) :
  e ∈ emitted lower dset language name skip_lines_dict min_chars gzipped ->
  (min_chars < Z.of_nat (length (e_text e)))%Z
  /\ exists article : page,
       article ∈ train dset /\ e = process_page article skip_lines_dict.
Proof.
  rewrite emitted_eq. destruct gzipped; [|by intros ?%elem_of_nil].
  rewrite list_elem_of_In, filter_In. unfold processed.
  rewrite in_map_iff. intros [(article & <- & Hin) Hlen].
  split; [by apply Z.ltb_lt|].
  exists article. by rewrite list_elem_of_In.
Qed.

Lemma emitted_text_exceeds_min_chars_witness :
  (32 < Z.of_nat (length (e_text (process_page mirror_a ∅))))%Z
  /\ exists article : page,
       article ∈ train mixed_seed
       /\ process_page mirror_a ∅ = process_page article ∅.
Proof.
  apply (emitted_text_exceeds_min_chars ascii_lower mixed_seed
           (lit "en") (lit "example") ∅ 32 true).
  rewrite emitted_eq. vm_compute. apply list_elem_of_here.
Defined.

(** The short page of that seed is dropped, the other one is written. *)
Example emitted_mixed_seed :
  emitted ascii_lower mixed_seed (lit "en") (lit "example") ∅ 32 true
  = [process_page mirror_a ∅].
Proof. reflexivity. Qed.

(** C1 (refuted by the code). Two pages with the same text: both are
    written, as two distinct entries with the same normalized text. The
    writer looks the normalized text up in [duplicated] and never adds
    to it. *)
Theorem emitted_mirrors_both_written (lower : str -> str) :
  emitted lower mirrored_seed (lit "en") (lit "example") ∅ 32 true
  = [process_page mirror_a ∅; process_page mirror_b ∅]
  /\ process_page mirror_a ∅ <> process_page mirror_b ∅
  /\ norm lower (process_page mirror_a ∅)
     = norm lower (process_page mirror_b ∅).
Proof.
  split; [by rewrite emitted_eq|]. split; [|reflexivity].
  intros H. apply (f_equal (fun e => m_url (e_meta e))) in H.
  vm_compute in H. discriminate H.
Qed.

(** C8 (refuted by the code). The entries are written in the order of the
    input, but a later page with the normalized text of an earlier one is
    written as well: the first occurrence is not the only one emitted. *)
Theorem emitted_later_occurrence_written (lower : str -> str) :
  emitted lower interleaved_seed (lit "en") (lit "example") ∅ 32 true
  = [process_page mirror_a ∅; process_page other_page ∅;
     process_page mirror_b ∅]
  /\ norm lower (process_page mirror_b ∅)
     = norm lower (process_page mirror_a ∅).
Proof. split; [by rewrite emitted_eq | reflexivity]. Qed.

(** ** Schema resolution *)

Section ConvertTypesFacts.

Variable T : Type.
Variable datasets_getattr : pyval -> result (pyval -> result T).

Lemma convert_types_dict items :
  convert_types T datasets_getattr (PDict items)
  = match dict_get items (lit "_type") with
    | Some tag =>
        try ctor <- datasets_getattr tag in
        try dtype <- getitem items (lit "dtype") in
        try t <- ctor dtype in
        ok (RFeature t)
    | None =>
        try items' <- convert_items T datasets_getattr items in
        ok (RDict items')
    end.
Proof. reflexivity. Qed.

Lemma convert_types_list l :
  convert_types T datasets_getattr (PList l)
  = try l' <- convert_all T datasets_getattr l in ok (RList l').
Proof. reflexivity. Qed.

(** A comprehension fails as soon as one of its values does. *)
Lemma convert_items_raises items key value :
  (key, value) ∈ items ->
  (exists e, convert_types T datasets_getattr value = inl e) ->
  exists e, convert_items T datasets_getattr items = inl e.
Proof.
  intros Hin [e He]. induction items as [|[k v] items IH].
  - by apply elem_of_nil in Hin.
  - apply elem_of_cons in Hin as [Heq|Hin].
    + injection Heq as <- <-. exists e. cbn. by rewrite He.
    + destruct (IH Hin) as [e' He']. unfold convert_items in *. cbn.
      destruct (convert_types T datasets_getattr v) as [e1|v']; cbn;
        [by eexists|].
      rewrite He'. by eexists.
Qed.

Lemma convert_all_raises l value :
  value ∈ l ->
  (exists e, convert_types T datasets_getattr value = inl e) ->
  exists e, convert_all T datasets_getattr l = inl e.
Proof.
  intros Hin [e He]. induction l as [|v l IH].
  - by apply elem_of_nil in Hin.
  - apply elem_of_cons in Hin as [->|Hin].
    + exists e. cbn. by rewrite He.
    + destruct (IH Hin) as [e' He']. unfold convert_all in *. cbn.
      destruct (convert_types T datasets_getattr v) as [e1|v']; cbn;
        [by eexists|].
      rewrite He'. by eexists.
Qed.

Lemma convert_types_unrecognized d :
  has_unrecognized_leaf T datasets_getattr d ->
  exists e, convert_types T datasets_getattr d = inl e.
Proof.
  induction 1 as [items tag Htag Hbad|items key value Htag Hin _ IH
                 |l value Hin _ IH].
  - rewrite convert_types_dict, Htag.
    destruct Hbad as [[e He]|(ctor & dtype & e & Hc & Hd & He)].
    + rewrite He. by eexists.
    + rewrite Hc. unfold getitem. rewrite Hd. cbn. rewrite He. by eexists.
  - rewrite convert_types_dict, Htag.
    destruct (convert_items_raises items key value Hin IH) as [e ->].
    by eexists.
  - rewrite convert_types_list.
    destruct (convert_all_raises l value Hin IH) as [e ->]. by eexists.
Qed.

End ConvertTypesFacts.

(** The table of the script resolves, field by field. *)
Example convert_types_features :
  exists items,
    convert_types Datasets.feature Datasets.getattr features
    = inr (RDict items)
    /\ length items = 26%nat
    /\ dict_get items (lit "seed_id")
       = Some (RFeature (Datasets.Value (lit "int32"))).
Proof. eexists. split; [vm_compute; reflexivity|]. split; reflexivity. Qed.

(** C3 (the claim as stated fails). A field described by a number is
    neither a leaf, nor a map, nor a sequence, and resolution returns a
    schema with [None] in its place. *)
Lemma convert_types_number_description :
  convert_types Datasets.feature Datasets.getattr number_description
  = inr (RDict [(lit "url", RFeature (Datasets.Value (lit "string")));
                (lit "depth", RNone)]).
Proof. reflexivity. Qed.

(** * Further properties of the page processor *)

Section FilterLinesFacts.

Local Open Scope nat_scope.

Implicit Types (s l : str) (ls : list str).

Lemma length_lstrip s : length (lstrip s) <= length s.
Proof.
  induction s as [|c s IH]; simpl; [lia|].
  destruct (is_space c); simpl; lia.
Qed.

Lemma length_strip s : length (strip s) <= length s.
Proof.
  unfold strip, rstrip. rewrite length_rev.
  etransitivity; [apply length_lstrip|]. rewrite length_rev.
  apply length_lstrip.
Qed.

(** Splitting and joining again gives the text back. *)
Lemma join_split c s : join [c] (split c s) = s.
Proof.
  induction s as [|d s IH]; [done|]. simpl.
  pose proof (split_nonempty c s) as Hne.
  destruct (N.eqb_spec d c) as [->|Hd].
  - destruct (split c s) as [|l ls]; [done|]. simpl in *. by rewrite IH.
  - destruct (split c s) as [|l ls]; [done|].
    destruct ls as [|l' ls]; simpl in *; by rewrite <- IH.
Qed.

Lemma length_join c ls :
  length (join [c] ls) = sum_list_with length ls + pred (length ls).
Proof.
  induction ls as [|l ls IH]; [done|].
  destruct ls as [|l' ls]; [simpl; lia|].
  change (join [c] (l :: l' :: ls)) with (l ++ [c] ++ join [c] (l' :: ls)).
  rewrite !length_app, IH. simpl. lia.
Qed.

Lemma length_join_filter_strip c (P : str -> bool) ls :
  length (join [c] (List.filter P (map strip ls))) <= length (join [c] ls).
Proof.
  rewrite !length_join.
  assert (H : sum_list_with length (List.filter P (map strip ls))
              <= sum_list_with length ls
              /\ length (List.filter P (map strip ls)) <= length ls).
  { induction ls as [|l ls [IH1 IH2]]; simpl; [lia|].
    pose proof (length_strip l).
    destruct (P (strip l)); simpl; lia. }
  lia.
Qed.

(** Both accumulators, and so both returned texts. *)
Lemma filter_lines_eq (article : str) (skip_dict : gmap str bool) :
  filter_lines article skip_dict
  = (strip (join [nl] (kept_lines skip_dict article)),
     strip (join [nl]
       (List.filter (suppressed skip_dict) (map strip (split nl article))))).
Proof. unfold filter_lines. simpl. by rewrite filter_loop. Qed.

Lemma flagged_filter_true (skip_dict : gmap str bool) l :
  flagged (filter (fun kv => kv.2 = true) skip_dict) l = flagged skip_dict l.
Proof.
  unfold flagged. destruct (skip_dict !! l) as [[]|] eqn:E.
  - by rewrite (map_lookup_filter_Some_2 _ _ l true).
  - rewrite map_lookup_filter_None_2; [done|].
    right. intros b Hb. simpl. congruence.
  - rewrite map_lookup_filter_None_2; [done | by left].
Qed.

(** The lines of the kept text. *)
Lemma kept_text_lines (article : str) (skip_dict : gmap str bool) :
  (filter_lines article skip_dict).1 = []
  \/ Forall (fun l => flagged skip_dict l = false /\ strip l = l)
       (split nl (filter_lines article skip_dict).1).
Proof.
  rewrite filter_lines_kept.
  rewrite strip_join by apply kept_lines_stripped.
  destruct (decide (trim (kept_lines skip_dict article) = [])) as [E|Hne].
  - left. by rewrite E.
  - right.
    rewrite split_join by (done || apply Forall_trim, kept_lines_no_nl).
    pose proof (Forall_trim _ _ (kept_lines_stripped skip_dict article)) as Hs.
    pose proof (Forall_trim _ _ (kept_lines_unsuppressed skip_dict article))
      as Hu.
    rewrite Forall_forall in Hs, Hu. apply Forall_forall. intros l Hl.
    rewrite flagged_suppressed. split; [by apply Hu|].
    by apply stripped_strip, Hs.
Qed.

End FilterLinesFacts.

(** X1. The kept text of [filter_lines] is empty, or each of its lines is
    stripped and is not flagged by the skip dictionary: a flagged line
    never reaches the output. *)
Theorem filter_lines_kept_text_unflagged (article : str)
    (skip_dict : gmap str bool) :
  let t := (filter_lines article skip_dict).1 in
  t = []
  \/ Forall (fun l => flagged skip_dict l = false /\ strip l = l)
       (split nl t).
Proof. apply kept_text_lines. Qed.

(** X2. [filter_lines] reads the skip dictionary through [get(line,
    False)]: an entry that maps a line to False has the effect of no entry,
    and removing all such entries changes neither returned text. *)
Theorem filter_lines_false_entries (article : str)
    (skip_dict : gmap str bool) :
  filter_lines article (filter (fun kv => kv.2 = true) skip_dict)
  = filter_lines article skip_dict.
Proof.
  unfold filter_lines. cbv zeta.
  assert (E : forall lines acc,
    fold_left (filter_step (filter (fun kv => kv.2 = true) skip_dict))
      lines acc
    = fold_left (filter_step skip_dict) lines acc).
  { induction lines as [|l lines IH]; intros acc; [done|]. simpl.
    rewrite IH. unfold filter_step. by rewrite flagged_filter_true. }
  by rewrite E.
Qed.

(** X3. Neither text returned by [filter_lines] is longer than the
    article. *)
Theorem filter_lines_length (article : str) (skip_dict : gmap str bool) :
  (length (filter_lines article skip_dict).1 <= length article)%nat
  /\ (length (filter_lines article skip_dict).2 <= length article)%nat.
Proof.
  rewrite filter_lines_eq. unfold kept_lines. cbn [fst snd].
  split; (etransitivity; [apply length_strip|]);
    (etransitivity; [apply length_join_filter_strip|]);
    by rewrite join_split.
Qed.

(** * Further properties of the boilerplate line detector *)

Section DetectorFacts.

Local Open Scope nat_scope.

Lemma length_remove_dups (l : list str) : length (remove_dups l) <= length l.
Proof.
  induction l as [|x l IH]; simpl; [lia|].
  destruct (decide_rel elem_of x l); simpl; lia.
Qed.

(** The detector returns exactly when it has its sample. *)
Lemma get_lines_to_skip_returns (dset : dataset_dict) (skip : gmap str bool) :
  get_lines_to_skip dset = inr skip ->
  train dset = [] \/ sample_size <= length (train dset).
Proof.
  intros H.
  destruct (train dset) as [|p ps] eqn:E; [by left|right].
  destruct (decide (sample_size <= length (p :: ps))) as [|Hlt]; [done|].
  rewrite get_lines_to_skip_short in H; [done|].
  rewrite E. simpl in *. lia.
Qed.

(** The threshold lies between 10 and 100. *)
Lemma thres_skip_bounds (sample : list page) :
  length sample <= sample_size ->
  10 <= thres_skip (scan sample).2 <= 100.
Proof.
  intros Hlen. unfold thres_skip.
  destruct (scan_invariant sample) as (_ & -> & _).
  pose proof (length_remove_dups (map text sample)) as Hd.
  rewrite length_map in Hd. unfold distinct_texts.
  assert (length (remove_dups (map text sample)) / 100 <= 100).
  { etransitivity; [apply Nat.Div0.div_le_mono, (Nat.le_trans _ _ _ Hd Hlen)|].
    by vm_compute. }
  lia.
Qed.

(** The returned dictionary is a function of the counts and the threshold. *)
Lemma lines_above_ext (thres : nat) (lc1 lc2 : gmap str nat) :
  (forall line, count_of lc1 line = count_of lc2 line) ->
  lines_above thres lc1 = lines_above thres lc2.
Proof.
  intros H. apply map_eq. intros line.
  destruct (lines_above_lookup thres lc1 line) as [H1 H1'].
  destruct (lines_above_lookup thres lc2 line) as [H2 H2'].
  rewrite H in H1, H1'.
  destruct (decide (thres < count_of lc2 line)) as [Hlt|Hge].
  - by rewrite (proj2 H1 Hlt), (proj2 H2 Hlt).
  - rewrite H1', H2' by lia. done.
Qed.

Lemma remove_dups_same_elements (l1 l2 : list str) :
  (forall t, t ∈ l1 <-> t ∈ l2) -> remove_dups l1 ≡ₚ remove_dups l2.
Proof.
  intros H. apply NoDup_Permutation; try apply NoDup_remove_dups.
  intros t. by rewrite !elem_of_remove_dups.
Qed.

Lemma sum_list_with_pos {A} (f : A -> nat) (l : list A) :
  0 < sum_list_with f l -> exists x, x ∈ l /\ 0 < f x.
Proof.
  induction l as [|x l IH]; simpl; [lia|]. intros H.
  destruct (decide (0 < f x)) as [Hx|Hx].
  - exists x. split; [by left | done].
  - destruct IH as (y & Hy & Hfy); [lia|].
    exists y. split; [by right | done].
Qed.

End DetectorFacts.

(** X5. In a skip set that the detector returns, every entry maps its line
    to True and the line was counted more than 10 times; and every line
    counted more than 100 times has an entry, whatever the sample. *)
Theorem get_lines_to_skip_count_bounds (dset : dataset_dict)
    (skip : gmap str bool) (line : str) :
  get_lines_to_skip dset = inr skip ->
  let count := count_of (scan (take sample_size (train dset))).1 line in
  (skip !! line = None
   \/ (skip !! line = Some true /\ (10 < count)%nat))
  /\ ((100 < count)%nat -> skip !! line = Some true).
Proof.
  intros H. pose proof (get_lines_to_skip_returns dset skip H) as Hs.
  rewrite get_lines_to_skip_sample in H by done. cbv zeta in H.
  injection H as <-. cbv zeta.
  set (sample := take sample_size (train dset)).
  assert (Hlen : (length sample <= sample_size)%nat).
  { subst sample. rewrite length_take. lia. }
  pose proof (thres_skip_bounds sample Hlen) as [Hlo Hhi].
  destruct (lines_above_lookup (thres_skip (scan sample).2)
              (scan sample).1 line) as [Hiff Hnone].
  split.
  - destruct (decide (thres_skip (scan sample).2
                      < count_of (scan sample).1 line)%nat) as [Hlt|Hge].
    + right. split; [by apply Hiff | lia].
    + left. apply Hnone. lia.
  - intros Hc. apply Hiff. lia.
Qed.

Lemma get_lines_to_skip_count_bounds_witness :
  let count :=
    count_of (scan (take sample_size (train large_seed))).1
      (lit "Subscribe") in
  (({[ lit "Subscribe" := true ]} : gmap str bool) !! lit "Subscribe" = None
   \/ (({[ lit "Subscribe" := true ]} : gmap str bool) !! lit "Subscribe"
       = Some true /\ (10 < count)%nat))
  /\ ((100 < count)%nat ->
      ({[ lit "Subscribe" := true ]} : gmap str bool) !! lit "Subscribe"
      = Some true).
Proof.
  apply (get_lines_to_skip_count_bounds large_seed).
  apply get_lines_to_skip_large_seed.
Defined.

(** X6. The skip set depends on the sample only through the set of its
    page texts: two datasets whose first 10000 pages carry the same texts,
    in any order, with any repetitions and any metadata, give the same
    result. *)
Theorem get_lines_to_skip_same_texts (d1 d2 : dataset_dict) :
  (sample_size <= length (train d1))%nat ->
  (sample_size <= length (train d2))%nat ->
  (forall t, t ∈ map text (take sample_size (train d1))
             <-> t ∈ map text (take sample_size (train d2))) ->
  get_lines_to_skip d1 = get_lines_to_skip d2.
Proof.
  intros H1 H2 Hsame.
  rewrite !get_lines_to_skip_sample by (by right). cbv zeta.
  set (s1 := take sample_size (train d1)) in *.
  set (s2 := take sample_size (train d2)) in *.
  pose proof (remove_dups_same_elements _ _ Hsame) as Hperm.
  destruct (scan_invariant s1) as (_ & Hsize1 & Hcount1).
  destruct (scan_invariant s2) as (_ & Hsize2 & Hcount2).
  unfold distinct_texts in *.
  assert (Hthres : thres_skip (scan s1).2 = thres_skip (scan s2).2).
  { unfold thres_skip. by rewrite Hsize1, Hsize2, Hperm. }
  rewrite Hthres. f_equal. apply lines_above_ext.
  intros line. by rewrite Hcount1, Hcount2, Hperm.
Qed.

Lemma large_seed_length : length (train large_seed) = sample_size.
Proof. unfold large_seed. cbn [train]. by rewrite length_map, length_seq. Qed.

Lemma get_lines_to_skip_same_texts_witness :
  get_lines_to_skip large_seed = get_lines_to_skip reversed_seed.
Proof.
  pose proof large_seed_length as L.
  assert (L1 : (sample_size <= length (train large_seed))%nat) by lia.
  assert (L2 : (sample_size <= length (train reversed_seed))%nat).
  { unfold reversed_seed. cbn [train]. rewrite length_rev. lia. }
  apply (get_lines_to_skip_same_texts large_seed reversed_seed L1 L2).
  intros t. unfold reversed_seed. cbn [train].
  rewrite !take_ge.
  - rewrite map_rev, !list_elem_of_In. apply in_rev.
  - rewrite length_rev. lia.
  - lia.
Defined.

(** X7. A line of a returned skip set is the stripped form of a line of
    some sampled page: the detector flags no text that it has not read. *)
Theorem get_lines_to_skip_lines_occur (dset : dataset_dict)
    (skip : gmap str bool) (line : str) :
  get_lines_to_skip dset = inr skip ->
  skip !! line = Some true ->
  exists p : page,
    p ∈ take sample_size (train dset)
    /\ line ∈ map strip (split nl (text p)).
Proof.
  intros H Hline. pose proof (get_lines_to_skip_returns dset skip H) as Hs.
  rewrite get_lines_to_skip_sample in H by done. cbv zeta in H.
  injection H as <-.
  set (sample := take sample_size (train dset)) in *.
  apply lines_above_lookup in Hline.
  destruct (scan_invariant sample) as (_ & _ & Hcount).
  rewrite Hcount in Hline.
  destruct (sum_list_with_pos (occurrences line) (distinct_texts sample))
    as (t & Ht & Hocc); [lia|].
  unfold distinct_texts in Ht.
  rewrite elem_of_remove_dups, list_elem_of_In, in_map_iff in Ht.
  destruct Ht as (p & <- & Hp). exists p.
  split; [by apply list_elem_of_In|].
  unfold occurrences in Hocc.
  destruct (List.filter _ _) as [|l ls] eqn:E; [simpl in Hocc; lia|].
  assert (Hl : In l (List.filter (fun l => bool_decide (l = line))
                       (map strip (split nl (text p)))))
    by (rewrite E; by left).
  apply filter_In in Hl as [Hin Heq]. apply bool_decide_eq_true in Heq.
  subst l. by apply list_elem_of_In.
Qed.

Lemma get_lines_to_skip_lines_occur_witness :
  exists p : page,
    p ∈ take sample_size (train large_seed)
    /\ lit "Subscribe" ∈ map strip (split nl (text p)).
Proof.
  apply (get_lines_to_skip_lines_occur large_seed
           {[ lit "Subscribe" := true ]}).
  - apply get_lines_to_skip_large_seed.
  - reflexivity.
Defined.

(** * Further properties of the corpus writer *)

Section WriterMoreFacts.

Variable lower : str -> str.
Variable skip_lines_dict : gmap str bool.
Variable min_chars : Z.

(** On a text stream the first page that passes the test stops the loop. *)
Lemma write_articles_text_result duplicated name lines closed dset :
  (write_articles lower skip_lines_dict min_chars duplicated
     (File name TextMode lines closed) dset).2
  = if existsb (passes lower min_chars duplicated)
         (processed skip_lines_dict dset)
    then inl TypeError else ok tt.
Proof.
  induction dset as [|article dset IH]; simpl; [done|].
  unfold write_article, passes in *.
  by destruct (_ && _).
Qed.

Lemma existsb_passes_empty (l : list entry) :
  existsb (passes lower min_chars ∅) l = true
  <-> exists e, e ∈ l /\ (min_chars < Z.of_nat (length (e_text e)))%Z.
Proof.
  rewrite existsb_exists. split; intros (e & He & Hp); exists e.
  - rewrite passes_empty in Hp. split; [by apply list_elem_of_In | lia].
  - rewrite passes_empty. split; [by apply list_elem_of_In | lia].
Qed.

Lemma filter_sublist_impl {A} (P Q : A -> bool) (l : list A) :
  (forall x, P x = true -> Q x = true) ->
  sublist (List.filter P l) (List.filter Q l).
Proof.
  intros H. induction l as [|x l IH]; simpl; [done|].
  destruct (P x) eqn:E.
  - rewrite (H x E). by constructor.
  - destruct (Q x); by try constructor.
Qed.

(** The file and the value that [make_seed_jsonl] leaves. *)
Lemma make_seed_jsonl_outcome dset language name gzipped :
  let out :=
    make_seed_jsonl lower dset language name skip_lines_dict min_chars gzipped
  in
  let repo_name := lit "lm_" ++ language ++ lit "_pseudocrawl_" ++ name in
  f_name out.1
  = repo_name ++ (if gzipped then lit ".jsonl.gz" else lit ".jsonl")
  /\ (forall names, out.2 = inr names ->
        names = (f_name out.1, repo_name) /\ f_closed out.1 = true)
  /\ (forall e, out.2 = inl e -> f_closed out.1 = false)
  /\ (gzipped = true -> exists names, out.2 = inr names).
Proof.
  cbv zeta. unfold make_seed_jsonl, open_file. destruct gzipped.
  - rewrite write_articles_binary. cbn [fst snd f_name f_closed close_file].
    split; [done|]. split; [by intros ? [= <-]|]. split; [done|].
    intros _. by eexists.
  - cbv beta iota zeta.
    match goal with
    | |- context [write_articles _ _ _ ?d (File ?n _ _ _) ?ps] =>
        pose proof (write_articles_text lower skip_lines_dict min_chars
                      d n [] false ps) as E1
    end.
    destruct (write_articles _ _ _ _ _ _) as [f' [e|u]];
      cbn [fst snd] in E1; subst f';
      cbn [fst snd f_name f_closed close_file].
    + split; [done|]. split; [done|]. split; done.
    + split; [done|]. split; [by intros ? [= <-]|]. split; done.
Qed.

End WriterMoreFacts.

(** X8. Without [gzipped] the writer opens a text stream and hands it
    bytes: when some page has a processed text longer than [min_chars],
    the call does not return, and no entry has been written. *)
Theorem make_seed_jsonl_text_stream (lower : str -> str)
    (dset : dataset_dict) (language name : str)
    (skip_lines_dict : gmap str bool) (min_chars : Z) (article : page) :
  article ∈ train dset ->
  (min_chars
   < Z.of_nat (length (e_text (process_page article skip_lines_dict))))%Z ->
  let out :=
    make_seed_jsonl lower dset language name skip_lines_dict min_chars false
  in
  f_lines out.1 = [] /\ forall names, out.2 <> inr names.
Proof.
  intros Hin Hlen. cbv zeta.
  unfold make_seed_jsonl, open_file. cbv beta iota zeta.
  match goal with
  | |- context [write_articles _ _ _ ?d (File ?n _ _ _) ?ps] =>
      pose proof (write_articles_text lower skip_lines_dict min_chars
                    d n [] false ps) as E1;
      pose proof (write_articles_text_result lower skip_lines_dict min_chars
                    d n [] false ps) as E2
  end.
  assert (Ht : existsb (passes lower min_chars ∅)
                 (processed skip_lines_dict (train dset)) = true).
  { apply existsb_passes_empty.
    exists (process_page article skip_lines_dict). split; [|done].
    unfold processed. rewrite list_elem_of_In, in_map_iff.
    exists article. by rewrite <- list_elem_of_In. }
  rewrite Ht in E2.
  destruct (write_articles _ _ _ _ _ _) as [f' r]. cbn [fst snd] in E1, E2.
  subst f' r. cbn [fst snd f_lines]. split; [done|]. by intros names.
Qed.

Lemma make_seed_jsonl_text_stream_witness :
  let out :=
    make_seed_jsonl ascii_lower mixed_seed (lit "en") (lit "example") ∅ 32
      false
  in
  f_lines out.1 = [] /\ forall names, out.2 <> inr names.
Proof.
  apply (make_seed_jsonl_text_stream ascii_lower mixed_seed
           (lit "en") (lit "example") ∅ 32 mirror_a).
  - unfold mixed_seed. cbn [train]. apply list_elem_of_further,
      list_elem_of_here.
  - vm_compute. reflexivity.
Defined.

(** The same seed with and without [gzipped]: one entry written, and a
    [TypeError] with nothing written. *)
Example make_seed_jsonl_mixed_seed_modes :
  f_lines (make_seed_jsonl ascii_lower mixed_seed (lit "en") (lit "example")
             ∅ 32 true).1 = [process_page mirror_a ∅]
  /\ (make_seed_jsonl ascii_lower mixed_seed (lit "en") (lit "example")
        ∅ 32 false).2 = inl TypeError.
Proof. split; reflexivity. Qed.

(** X9. When the writer returns, the file it has written is closed and
    has the name lm_<language>_pseudocrawl_<name> with the extension of
    its mode, and the value returned is that file name with the
    repository name. *)
Theorem make_seed_jsonl_file (lower : str -> str)
    (dset : dataset_dict) (language name : str)
    (skip_lines_dict : gmap str bool) (min_chars : Z) (gzipped : bool)
    (names : str * str) :
  let out :=
    make_seed_jsonl lower dset language name skip_lines_dict min_chars gzipped
  in
  let repo_name := lit "lm_" ++ language ++ lit "_pseudocrawl_" ++ name in
  out.2 = inr names ->
  names = (f_name out.1, repo_name)
  /\ f_name out.1
     = repo_name ++ (if gzipped then lit ".jsonl.gz" else lit ".jsonl")
  /\ f_closed out.1 = true.
Proof.
  cbv zeta. intros Hret.
  destruct (make_seed_jsonl_outcome lower skip_lines_dict min_chars
              dset language name gzipped) as (Hname & Hok & _ & _).
  cbv zeta in Hname, Hok.
  destruct (Hok names Hret) as [-> Hclosed]. done.
Qed.

Lemma make_seed_jsonl_file_witness :
  (lit "lm_en_pseudocrawl_example.jsonl.gz", lit "lm_en_pseudocrawl_example")
  = (f_name (make_seed_jsonl ascii_lower mixed_seed (lit "en")
               (lit "example") ∅ 32 true).1,
     lit "lm_" ++ lit "en" ++ lit "_pseudocrawl_" ++ lit "example")
  /\ f_name (make_seed_jsonl ascii_lower mixed_seed (lit "en")
               (lit "example") ∅ 32 true).1
     = (lit "lm_" ++ lit "en" ++ lit "_pseudocrawl_" ++ lit "example")
       ++ lit ".jsonl.gz"
  /\ f_closed (make_seed_jsonl ascii_lower mixed_seed (lit "en")
                 (lit "example") ∅ 32 true).1 = true.
Proof.
  apply (make_seed_jsonl_file ascii_lower mixed_seed (lit "en")
           (lit "example") ∅ 32 true
           (lit "lm_en_pseudocrawl_example.jsonl.gz",
            lit "lm_en_pseudocrawl_example")).
  reflexivity.
Defined.

(** X10. Raising [min_chars] only removes entries: the artifact for the
    larger bound is a subsequence of the artifact for the smaller one. *)
Theorem emitted_min_chars_monotone (lower : str -> str)
    (dset : dataset_dict) (language name : str)
    (skip_lines_dict : gmap str bool) (m1 m2 : Z) (gzipped : bool) :
  (m1 <= m2)%Z ->
  sublist
    (emitted lower dset language name skip_lines_dict m2 gzipped)
    (emitted lower dset language name skip_lines_dict m1 gzipped).
Proof.
  intros H. rewrite !emitted_eq. destruct gzipped; [|done].
  apply filter_sublist_impl. intros e He%Z.ltb_lt. apply Z.ltb_lt. lia.
Qed.

Lemma emitted_min_chars_monotone_witness :
  sublist
    (emitted ascii_lower mixed_seed (lit "en") (lit "example") ∅ 32 true)
    (emitted ascii_lower mixed_seed (lit "en") (lit "example") ∅ 5 true).
Proof.
  apply (emitted_min_chars_monotone ascii_lower mixed_seed
           (lit "en") (lit "example") ∅ 5 32 true).
  lia.
Defined.

(** X11. With a [min_chars] that is not negative, no line of the text of
    an emitted entry is flagged by the skip dictionary, and every line is
    stripped. *)
Theorem emitted_lines_unflagged (lower : str -> str)
    (dset : dataset_dict) (language name : str)
    (skip_lines_dict : gmap str bool) (min_chars : Z) (gzipped : bool)
    (e : entry) :
  (0 <= min_chars)%Z ->
  e ∈ emitted lower dset language name skip_lines_dict min_chars gzipped ->
  Forall (fun l => flagged skip_lines_dict l = false /\ strip l = l)
    (split nl (e_text e)).
Proof.
  intros Hmin. rewrite emitted_eq. destruct gzipped; [|by intros ?%elem_of_nil].
  rewrite list_elem_of_In, filter_In. unfold processed.
  rewrite in_map_iff. intros [(article & <- & _) Hlen].
  unfold process_page in *. cbn [e_text] in *.
  destruct (kept_text_lines (text article) skip_lines_dict) as [E|H]; [|done].
  rewrite E in Hlen. apply Z.ltb_lt in Hlen. simpl in Hlen. lia.
Qed.

Lemma emitted_lines_unflagged_witness :
  Forall (fun l => flagged {[ lit "Subscribe" := true ]} l = false
                   /\ strip l = l)
    (split nl (e_text (process_page (site_page 1)
                         {[ lit "Subscribe" := true ]}))).
Proof.
  apply (emitted_lines_unflagged ascii_lower site_seed
           (lit "en") (lit "example") {[ lit "Subscribe" := true ]} 0 true).
  - lia.
  - rewrite emitted_eq. vm_compute.
    apply list_elem_of_further, list_elem_of_here.
Defined.

(** * Further properties of schema resolution *)

Section ConvertTypesMoreFacts.

Variable T : Type.
Variable datasets_getattr : pyval -> result (pyval -> result T).

(** Induction on a description, with the hypothesis for the values of a
    dictionary and the elements of a list. *)
Fixpoint pyval_nested_ind (P : pyval -> Prop)
    (HNone : P PNone) (HInt : forall z, P (PInt z))
    (HStr : forall s, P (PStr s))
    (HList : forall l, Forall P l -> P (PList l))
    (HDict : forall items, Forall (fun kv => P kv.2) items -> P (PDict items))
    (d : pyval) : P d :=
  match d with
  | PNone => HNone
  | PInt z => HInt z
  | PStr s => HStr s
  | PList l =>
      HList l
        ((fix all (l : list pyval) : Forall P l :=
            match l with
            | [] => Forall_nil_2 P
            | v :: r =>
                Forall_cons_2 P v r
                  (pyval_nested_ind P HNone HInt HStr HList HDict v) (all r)
            end) l)
  | PDict items =>
      HDict items
        ((fix all (l : list (str * pyval)) : Forall (fun kv => P kv.2) l :=
            match l with
            | [] => Forall_nil_2 _
            | kv :: r =>
                Forall_cons_2 (fun kv => P kv.2) kv r
                  (pyval_nested_ind P HNone HInt HStr HList HDict kv.2)
                  (all r)
            end) items)
  end.

Lemma convert_items_cons key value rest :
  convert_items T datasets_getattr ((key, value) :: rest)
  = try value' <- convert_types T datasets_getattr value in
    try rest' <- convert_items T datasets_getattr rest in
    ok ((key, value') :: rest').
Proof. reflexivity. Qed.

Lemma convert_all_cons value rest :
  convert_all T datasets_getattr (value :: rest)
  = try value' <- convert_types T datasets_getattr value in
    try rest' <- convert_all T datasets_getattr rest in
    ok (value' :: rest').
Proof. reflexivity. Qed.

Lemma convert_types_leaf items tag :
  dict_get items (lit "_type") = Some tag ->
  convert_types T datasets_getattr (PDict items)
  = try t <- leaf_result T datasets_getattr items tag in ok (RFeature t).
Proof.
  intros H. rewrite convert_types_dict, H. unfold leaf_result.
  destruct (datasets_getattr tag) as [e|ctor]; [reflexivity|].
  destruct (getitem items (lit "dtype")) as [e|dtype]; reflexivity.
Qed.

Lemma convert_types_same_shape d :
  forall r, convert_types T datasets_getattr d = inr r -> same_shape T d r.
Proof.
  induction d as [| | |l IH|items IH] using pyval_nested_ind; intros r Hr.
  - cbv in Hr. injection Hr as <-. by constructor.
  - cbv in Hr. injection Hr as <-. by constructor.
  - cbv in Hr. injection Hr as <-. by constructor.
  - rewrite convert_types_list in Hr.
    destruct (convert_all T datasets_getattr l) as [e|l'] eqn:E; [done|].
    injection Hr as <-. constructor.
    revert l' E. induction IH as [|v l Hv _ IHl]; intros l' E.
    + injection E as <-. constructor.
    + rewrite convert_all_cons in E.
      destruct (convert_types T datasets_getattr v) as [e|v'] eqn:Ev;
        [done|]. cbn in E.
      destruct (convert_all T datasets_getattr l) as [e|l''] eqn:El;
        [done|]. injection E as <-.
      constructor; [by apply Hv | by apply IHl].
  - destruct (dict_get items (lit "_type")) as [tag|] eqn:Htag.
    + rewrite (convert_types_leaf items tag Htag) in Hr.
      destruct (leaf_result T datasets_getattr items tag) as [e|t]; [done|].
      injection Hr as <-. by econstructor.
    + rewrite convert_types_dict, Htag in Hr.
      destruct (convert_items T datasets_getattr items) as [e|items'] eqn:E;
        [done|].
      injection Hr as <-. constructor; [done|]. clear Htag.
      revert items' E. induction IH as [|[k v] items Hv _ IHl]; intros l' E.
      * injection E as <-. constructor.
      * rewrite convert_items_cons in E.
        destruct (convert_types T datasets_getattr v) as [e|v'] eqn:Ev;
          [done|]. cbn in E.
        destruct (convert_items T datasets_getattr items) as [e|l''] eqn:El;
          [done|]. injection E as <-.
        constructor; [split; [done | by apply Hv] | by apply IHl].
Qed.

Lemma convert_types_failing_leaf d :
  reaches_failing_leaf T datasets_getattr d ->
  exists e, convert_types T datasets_getattr d = inl e.
Proof.
  induction 1 as [items tag e Htag He|items key value Htag Hin _ IH
                 |l value Hin _ IH].
  - rewrite (convert_types_leaf items tag Htag), He. by eexists.
  - rewrite convert_types_dict, Htag.
    destruct (convert_items_raises T datasets_getattr items key value Hin IH)
      as [e ->].
    by eexists.
  - rewrite convert_types_list.
    destruct (convert_all_raises T datasets_getattr l value Hin IH)
      as [e ->].
    by eexists.
Qed.

Lemma convert_types_raises_leaf d :
  forall e, convert_types T datasets_getattr d = inl e ->
            reaches_failing_leaf T datasets_getattr d.
Proof.
  induction d as [| | |l IH|items IH] using pyval_nested_ind; intros e He;
    try done.
  - rewrite convert_types_list in He.
    destruct (convert_all T datasets_getattr l) as [e'|l'] eqn:E; [|done].
    clear He. revert e' E.
    induction IH as [|v l Hv _ IHl]; intros e' E; [done|].
    rewrite convert_all_cons in E.
    destruct (convert_types T datasets_getattr v) as [e1|v'] eqn:Ev.
    + apply (fails_in_list _ _ _ v); [by left | by eapply Hv].
    + cbn in E.
      destruct (convert_all T datasets_getattr l) as [e2|l''] eqn:El;
        [|done].
      specialize (IHl e2 eq_refl).
      inversion IHl as [| |? value Hin Hval]; subst.
      apply (fails_in_list _ _ _ value); [by right | done].
  - destruct (dict_get items (lit "_type")) as [tag|] eqn:Htag.
    + rewrite (convert_types_leaf items tag Htag) in He.
      apply (fails_here _ _ items tag e); [done|].
      destruct (leaf_result T datasets_getattr items tag) as [e0|t];
        cbv [rbind ok] in He; congruence.
    + rewrite convert_types_dict, Htag in He.
      destruct (convert_items T datasets_getattr items) as [e'|l'] eqn:E;
        [|done].
      clear He.
      assert (Hex : exists key value,
                 (key, value) ∈ items
                 /\ reaches_failing_leaf T datasets_getattr value).
      { clear Htag. revert e' E.
        induction IH as [|[k v] items Hv _ IHl]; intros e' E; [done|].
        rewrite convert_items_cons in E.
        destruct (convert_types T datasets_getattr v) as [e1|v'] eqn:Ev.
        - exists k, v. split; [by left | by eapply Hv].
        - cbn in E.
          destruct (convert_items T datasets_getattr items) as [e2|l'']
            eqn:El; [|done].
          destruct (IHl e2 eq_refl) as (key & value & Hin & Hval).
          exists key, value. split; [by right | done]. }
      destruct Hex as (key & value & Hin & Hval).
      by apply (fails_in_dict _ _ items key value).
Qed.

End ConvertTypesMoreFacts.

(** X12. A schema that [convert_types] returns has the shape of the
    description: the keys of every dictionary in their order, the length
    of every list, an object of the library at every dictionary with the
    key "_type", and [None] at every other node. *)
Theorem convert_types_keeps_shape (T : Type)
    (datasets_getattr : pyval -> result (pyval -> result T))
    (d : pyval) (r : resolved T) :
  convert_types T datasets_getattr d = inr r -> same_shape T d r.
Proof. apply convert_types_same_shape. Qed.

Lemma convert_types_keeps_shape_witness :
  same_shape Datasets.feature number_description
    (RDict [(lit "url", RFeature (Datasets.Value (lit "string")));
            (lit "depth", RNone)]).
Proof.
  apply (convert_types_keeps_shape Datasets.feature Datasets.getattr).
  reflexivity.
Defined.

(** X13. [convert_types] raises exactly when the traversal reaches a
    dictionary with the key "_type" at which one of the three calls
    (attribute lookup, "dtype" lookup, construction) fails; any other
    content of a description never makes it fail. *)
Theorem convert_types_raises_iff (T : Type)
    (datasets_getattr : pyval -> result (pyval -> result T)) (d : pyval) :
  (exists e, convert_types T datasets_getattr d = inl e)
  <-> reaches_failing_leaf T datasets_getattr d.
Proof.
  split.
  - intros [e He]. by eapply convert_types_raises_leaf.
  - apply convert_types_failing_leaf.
Qed.

Section ConvertTypesOutcome.

Variable T : Type.
Variable datasets_getattr : pyval -> result (pyval -> result T).

(** A comprehension raises what its first failing value raises. *)
Lemma convert_items_first before key value after e :
  Forall (fun kv => exists r,
            convert_types T datasets_getattr kv.2 = inr r) before ->
  convert_types T datasets_getattr value = inl e ->
  convert_items T datasets_getattr (before ++ (key, value) :: after) = inl e.
Proof.
  intros Hb He. induction Hb as [|[k v] before [r Hr] _ IH].
  - simpl app. by rewrite convert_items_cons, He.
  - simpl app. simpl in Hr. by rewrite convert_items_cons, Hr, IH.
Qed.

Lemma convert_all_first before value after e :
  Forall (fun v => exists r,
            convert_types T datasets_getattr v = inr r) before ->
  convert_types T datasets_getattr value = inl e ->
  convert_all T datasets_getattr (before ++ value :: after) = inl e.
Proof.
  intros Hb He. induction Hb as [|v before [r Hr] _ IH].
  - simpl app. by rewrite convert_all_cons, He.
  - simpl app. by rewrite convert_all_cons, Hr, IH.
Qed.

Lemma raises_convert_types d e :
  raises T datasets_getattr d e ->
  convert_types T datasets_getattr d = inl e.
Proof.
  induction 1 as [items tag e Htag He|items tag ctor Htag Hc Hd
                 |items tag ctor dtype e Htag Hc Hd He
                 |items before key value after e Htag -> Hb _ IH
                 |l before value after e -> Hb _ IH].
  - by rewrite convert_types_dict, Htag, He.
  - rewrite convert_types_dict, Htag, Hc. unfold getitem. by rewrite Hd.
  - rewrite convert_types_dict, Htag, Hc. unfold getitem. rewrite Hd.
    cbv [rbind ok]. by rewrite He.
  - rewrite convert_types_dict, Htag.
    by rewrite (convert_items_first before key value after e).
  - rewrite convert_types_list.
    by rewrite (convert_all_first before value after e).
Qed.

Lemma convert_types_raises d :
  forall e, convert_types T datasets_getattr d = inl e ->
            raises T datasets_getattr d e.
Proof.
  induction d as [| | |l IH|items IH] using pyval_nested_ind; intros e He;
    try done.
  - rewrite convert_types_list in He.
    destruct (convert_all T datasets_getattr l) as [e'|l'] eqn:E; [|done].
    injection He as ->.
    assert (Hex : exists before value after,
               l = before ++ value :: after
               /\ Forall (fun v => exists r,
                            convert_types T datasets_getattr v = inr r) before
               /\ raises T datasets_getattr value e).
    { revert E. induction IH as [|v l Hv _ IHl]; intros E; [done|].
      rewrite convert_all_cons in E.
      destruct (convert_types T datasets_getattr v) as [e1|v'] eqn:Ev.
      - injection E as ->. exists [], v, l.
        split; [done|]. split; [constructor | by apply Hv].
      - cbv [rbind] in E.
        destruct (convert_all T datasets_getattr l) as [e2|l''] eqn:El;
          [|done].
        injection E as ->.
        destruct (IHl eq_refl) as (before & value & after & -> & Hb & Hr).
        exists (v :: before), value, after.
        split; [done|]. split; [|done]. constructor; [by eexists | done]. }
    destruct Hex as (before & value & after & Hl & Hb & Hr).
    by eapply raises_in_list.
  - destruct (dict_get items (lit "_type")) as [tag|] eqn:Htag.
    + rewrite convert_types_dict, Htag in He.
      destruct (datasets_getattr tag) as [e1|ctor] eqn:Hc.
      * injection He as ->. by eapply raises_getattr.
      * unfold getitem in He.
        destruct (dict_get items (lit "dtype")) as [dtype|] eqn:Hd;
          cbv [rbind ok raise] in He.
        -- destruct (ctor dtype) as [e2|t] eqn:Ht; [|discriminate He].
           injection He as ->. by eapply raises_ctor.
        -- injection He as <-. by eapply raises_dtype.
    + rewrite convert_types_dict, Htag in He.
      destruct (convert_items T datasets_getattr items) as [e'|l'] eqn:E;
        [|done].
      injection He as ->.
      assert (Hex : exists before key value after,
                 items = before ++ (key, value) :: after
                 /\ Forall (fun kv => exists r,
                              convert_types T datasets_getattr kv.2 = inr r)
                      before
                 /\ raises T datasets_getattr value e).
      { clear Htag. revert E.
        induction IH as [|[k v] items Hv _ IHl]; intros E; [done|].
        rewrite convert_items_cons in E.
        destruct (convert_types T datasets_getattr v) as [e1|v'] eqn:Ev.
        - injection E as ->. exists [], k, v, items.
          split; [done|]. split; [constructor | by apply Hv].
        - cbv [rbind] in E.
          destruct (convert_items T datasets_getattr items) as [e2|l'']
            eqn:El; [|done].
          injection E as ->.
          destruct (IHl eq_refl)
            as (before & key & value & after & -> & Hb & Hr).
          exists ((k, v) :: before), key, value, after.
          split; [done|]. split; [|done].
          constructor; [by eexists | done]. }
      destruct Hex as (before & key & value & after & Hl & Hb & Hr).
      by eapply raises_in_dict.
Qed.

End ConvertTypesOutcome.

(** C3 (as the code has it). Resolution fails for every description in
    which it reaches a leaf whose type tag or dtype the library does not
    recognize. Whenever it fails, the exception is the one of the first
    leaf of the traversal at which a call fails: the exception of the
    library for an unrecognized type tag or dtype, a [KeyError] for a
    missing "dtype". Nothing else makes it fail: in every other case it
    returns a schema of the shape of the description, with [None] at each
    node that is neither a dictionary nor a list. *)
Theorem convert_types_raises_or_resolves (T : Type)
    (datasets_getattr : pyval -> result (pyval -> result T)) (d : pyval) :
  (has_unrecognized_leaf T datasets_getattr d ->
   exists e, convert_types T datasets_getattr d = inl e
             /\ raises T datasets_getattr d e)
  /\ (forall e, convert_types T datasets_getattr d = inl e
                <-> raises T datasets_getattr d e)
  /\ ((exists e, raises T datasets_getattr d e)
      \/ (exists r, convert_types T datasets_getattr d = inr r
                    /\ same_shape T d r)).
Proof.
  split; [|split].
  - intros H.
    destruct (convert_types_unrecognized T datasets_getattr d H) as [e He].
    exists e. split; [done | by apply convert_types_raises].
  - intros e. split.
    + apply (convert_types_raises T datasets_getattr).
    + apply (raises_convert_types T datasets_getattr).
  - destruct (convert_types T datasets_getattr d) as [e|r] eqn:E.
    + left. exists e. by apply convert_types_raises.
    + right. exists r. split; [done|].
      by apply (convert_types_same_shape T datasets_getattr).
Qed.

Lemma convert_types_raises_or_resolves_witness :
  exists e,
    convert_types Datasets.feature Datasets.getattr misspelled_description
    = inl e
    /\ raises Datasets.feature Datasets.getattr misspelled_description e.
Proof.
  apply (convert_types_raises_or_resolves
           Datasets.feature Datasets.getattr misspelled_description).
  eapply (unrecognized_in_dict _ _ _ (lit "depth")); [reflexivity | |].
  - right. left.
  - eapply unrecognized_here; [reflexivity|].
    left. exists AttributeError. reflexivity.
Defined.

(** The schema around a number: the description with a number for a field
    has no leaf at which a call fails, and it resolves to a schema of its
    shape. *)
Example number_description_resolves :
  (forall e, ~ raises Datasets.feature Datasets.getattr number_description e)
  /\ same_shape Datasets.feature number_description
       (RDict [(lit "url", RFeature (Datasets.Value (lit "string")));
               (lit "depth", RNone)]).
Proof.
  split.
  - intros e He. apply raises_convert_types in He. discriminate He.
  - by apply (convert_types_same_shape Datasets.feature Datasets.getattr).
Qed.

(** * The entry point *)

Section MainFacts.

Variable lower : str -> str.
Variable load_dataset : str -> str -> option dataset_dict.
Variable hub : list hub_call -> hub_call -> option str.

(** The calls of an upload: the creation of the repository, then the
    upload of the file when the creation has been accepted. *)
Lemma push_jsonl_to_hub_calls file_name repo_name token :
  let repo_id := lit "bigscience-catalogue-lm-data/" ++ repo_name in
  let create := CreateRepo repo_id true (lit "dataset") token in
  let upload :=
    UploadFile file_name file_name repo_id token (lit "dataset") in
  (push_jsonl_to_hub hub [] file_name repo_name token).1 = [create]
  \/ (push_jsonl_to_hub hub [] file_name repo_name token).1
     = [create; upload].
Proof.
  cbv zeta. unfold push_jsonl_to_hub.
  destruct (hub [] _); [by right | by left].
Qed.

(** The file of a run holds entries of more than 128 characters. *)
Lemma make_seed_jsonl_lines dset language name skip_lines_dict gzipped :
  Forall (fun e => (128 < Z.of_nat (length (e_text e)))%Z)
    (f_lines (make_seed_jsonl lower dset language name skip_lines_dict
                128 gzipped).1).
Proof.
  change (f_lines _)
    with (emitted lower dset language name skip_lines_dict 128 gzipped).
  rewrite emitted_eq. destruct gzipped; [|constructor].
  apply Forall_forall. intros e He.
  apply list_elem_of_In, filter_In in He as [_ He]. by apply Z.ltb_lt.
Qed.

End MainFacts.

(** X15. A run of [main] that makes any call to the hub was asked to push
    and has a token that is not empty; it has written one file, which is
    closed and named lm_<language>_pseudocrawl_<name> with the extension
    of its mode, and whose entries all have more than 128 characters; the
    calls are the creation of the private dataset repository of that name
    under bigscience-catalogue-lm-data, followed at most by the upload of
    that file to it. *)
Theorem main_hub_calls (lower : str -> str)
    (load_dataset : str -> str -> option dataset_dict)
    (hub : list hub_call -> hub_call -> option str) (args : arguments) :
  let w := (main lower load_dataset hub args).1 in
  calls w <> [] ->
  a_push_to_hub args = true
  /\ a_token args <> []
  /\ exists f : file,
       files w = [f]
       /\ f_closed f = true
       /\ Forall (fun e => (128 < Z.of_nat (length (e_text e)))%Z) (f_lines f)
       /\ let repo_name :=
            lit "lm_" ++ a_language_code args
            ++ lit "_pseudocrawl_" ++ a_name args in
          let repo_id := lit "bigscience-catalogue-lm-data/" ++ repo_name in
          let create :=
            CreateRepo repo_id true (lit "dataset") (a_token args) in
          let upload :=
            UploadFile (f_name f) (f_name f) repo_id (a_token args)
              (lit "dataset") in
          f_name f
          = repo_name
            ++ (if a_gzipped args then lit ".jsonl.gz" else lit ".jsonl")
          /\ (calls w = [create] \/ calls w = [create; upload]).
Proof.
  cbv zeta. unfold main.
  destruct (a_push_to_hub args) eqn:Hpush; cbn [andb].
  2: { destruct (load_dataset _ _) as [dset|]; [|done].
       destruct (get_lines_to_skip dset) as [e|skip]; [done|].
       by destruct (make_seed_jsonl _ _ _ _ _ _ _) as [f [e|[fn rn]]]. }
  destruct (bool_decide (a_token args = [])) eqn:Htoken; [done|].
  apply bool_decide_eq_false in Htoken.
  destruct (load_dataset _ _) as [dset|]; [|done].
  destruct (get_lines_to_skip dset) as [e|skip]; [done|].
  pose proof (make_seed_jsonl_outcome lower skip 128 dset
                (a_language_code args) (a_name args) (a_gzipped args))
    as (Hname & Hok & _ & _).
  pose proof (make_seed_jsonl_lines lower dset (a_language_code args)
                (a_name args) skip (a_gzipped args)) as Hlines.
  cbv zeta in Hname, Hok.
  destruct (make_seed_jsonl _ _ _ _ _ _ _) as [f [e|names]] eqn:E;
    cbn [fst snd] in *; [done|].
  destruct (Hok names eq_refl) as [-> Hclosed].
  pose proof (push_jsonl_to_hub_calls hub (f_name f)
                (lit "lm_" ++ a_language_code args
                 ++ lit "_pseudocrawl_" ++ a_name args) (a_token args))
    as Hcalls.
  cbv zeta in Hcalls.
  destruct (push_jsonl_to_hub _ _ _ _ _) as [log [u|]]; cbn [fst snd] in *;
    intros _; (split; [done|]); (split; [done|]); exists f;
    cbn [files calls]; done.
Qed.

Lemma main_hub_calls_witness :
  a_push_to_hub (example_args true true) = true
  /\ a_token (example_args true true) <> []
  /\ exists f : file,
       files (main ascii_lower (store empty_seed) accepting_hub
                (example_args true true)).1 = [f]
       /\ f_closed f = true
       /\ Forall (fun e => (128 < Z.of_nat (length (e_text e)))%Z) (f_lines f)
       /\ let repo_name :=
            lit "lm_" ++ a_language_code (example_args true true)
            ++ lit "_pseudocrawl_" ++ a_name (example_args true true) in
          let repo_id := lit "bigscience-catalogue-lm-data/" ++ repo_name in
          let create :=
            CreateRepo repo_id true (lit "dataset")
              (a_token (example_args true true)) in
          let upload :=
            UploadFile (f_name f) (f_name f) repo_id
              (a_token (example_args true true)) (lit "dataset") in
          f_name f
          = repo_name
            ++ (if a_gzipped (example_args true true)
                then lit ".jsonl.gz" else lit ".jsonl")
          /\ (calls (main ascii_lower (store empty_seed) accepting_hub
                       (example_args true true)).1 = [create]
              \/ calls (main ascii_lower (store empty_seed) accepting_hub
                          (example_args true true)).1 = [create; upload]).
Proof.
  apply (main_hub_calls ascii_lower (store empty_seed) accepting_hub
           (example_args true true)).
  vm_compute. discriminate.
Defined.

(** X16. On a seed that is not empty and has fewer pages than the sample,
    a run of [main] that passes the assertion on the token ends with the
    [IndexError] of the detector: it opens no file and makes no call to
    the hub. *)
Theorem main_small_seed (lower : str -> str)
    (load_dataset : str -> str -> option dataset_dict)
    (hub : list hub_call -> hub_call -> option str) (args : arguments)
    (dset : dataset_dict) :
  a_push_to_hub args && bool_decide (a_token args = []) = false ->
  load_dataset
    (a_pseudo_crawl_path args ++ lit "/seed_id="
     ++ str_of_int (a_seed_id args) ++ lit "/text__html/*.jsonl.gz")
    (lit "cache_seed_" ++ str_of_int (a_seed_id args)) = Some dset ->
  (0 < length (train dset) < sample_size)%nat ->
  main lower load_dataset hub args = (World [] [], inl (Raised IndexError)).
Proof.
  intros Hassert Hload Hlen. unfold main.
  rewrite Hassert, Hload. by rewrite get_lines_to_skip_short.
Qed.

Lemma main_small_seed_witness :
  main ascii_lower (store small_seed) accepting_hub (example_args true true)
  = (World [] [], inl (Raised IndexError)).
Proof.
  apply (main_small_seed ascii_lower (store small_seed) accepting_hub
           (example_args true true) small_seed).
  - reflexivity.
  - reflexivity.
  - vm_compute. lia.
Defined.

(** X17. Without the gzipped flag no run of [main] writes an entry: every
    file it leaves is empty. *)
Theorem main_without_gzipped (lower : str -> str)
    (load_dataset : str -> str -> option dataset_dict)
    (hub : list hub_call -> hub_call -> option str) (args : arguments) :
  a_gzipped args = false ->
  Forall (fun f => f_lines f = [])
    (files (main lower load_dataset hub args).1).
Proof.
  intros Hgz. unfold main. rewrite Hgz.
  destruct (_ && _); [constructor|].
  destruct (load_dataset _ _) as [dset|]; [|constructor].
  destruct (get_lines_to_skip dset) as [e|skip]; [constructor|].
  pose proof (emitted_eq lower skip 128 dset
                (a_language_code args) (a_name args) false) as E.
  unfold emitted in E.
  destruct (make_seed_jsonl _ _ _ _ _ _ _) as [f [e|[fn rn]]];
    cbn [fst] in E.
  - by repeat constructor.
  - destruct (a_push_to_hub args); [|by repeat constructor].
    destruct (push_jsonl_to_hub _ _ _ _ _) as [log [u|]];
      by repeat constructor.
Qed.

Lemma main_without_gzipped_witness :
  Forall (fun f => f_lines f = [])
    (files (main ascii_lower (store repeated_seed) accepting_hub
              (example_args false true)).1).
Proof.
  apply (main_without_gzipped ascii_lower (store repeated_seed)
           accepting_hub (example_args false true)).
  reflexivity.
Defined.

(** That run meets the text stream: the first page has more than 128
    characters, the write of its entry is refused, and the run ends with
    the file opened, empty and not closed, and with no call to the hub. *)
Example main_repeated_seed_without_gzipped :
  main ascii_lower (store repeated_seed) accepting_hub
    (example_args false true)
  = (World [File (lit "lm_en_pseudocrawl_example.jsonl") TextMode [] false]
       [],
     inl (Raised TypeError)).
Proof. vm_compute. reflexivity. Qed.

(** * The requirements file *)

Section RequirementsFacts.

Implicit Types (s l : str) (c : N).

Lemma universal_newlines_no_cr s : cr ∉ universal_newlines s.
Proof.
  assert (H : forall n s, (length s <= n)%nat -> cr ∉ universal_newlines s).
  { clear s. induction n as [|n IH]; intros s Hn.
    - destruct s; [apply not_elem_of_nil | simpl in Hn; lia].
    - destruct s as [|c r]; [apply not_elem_of_nil|]. simpl in Hn. simpl.
      destruct (N.eqb_spec c cr) as [->|Hc].
      + rewrite not_elem_of_cons. split; [done|].
        destruct r as [|d r']; [apply not_elem_of_nil|]. simpl in Hn.
        destruct (d =? nl); apply IH; simpl; lia.
      + rewrite not_elem_of_cons. split; [done|]. apply IH. lia. }
  by apply (H (length s)).
Qed.

(** A line of the file has its only "\n" at its end, and is not empty. *)
Lemma file_lines_shape s :
  Forall (fun l => l <> [] /\ exists body,
                     (nl ∉ body) /\ (l = body \/ l = body ++ [nl]))
    (file_lines s).
Proof.
  induction s as [|c r IH]; simpl; [constructor|].
  destruct (N.eqb_spec c nl) as [->|Hc].
  - constructor; [|done]. split; [done|].
    exists []. split; [apply not_elem_of_nil | by right].
  - destruct (file_lines r) as [|l ls].
    + repeat constructor; [done|]. exists [c]. split; [|by left].
      rewrite not_elem_of_cons. split; [done | apply not_elem_of_nil].
    + apply Forall_cons in IH as [(_ & body & Hb & Hl) Hls].
      constructor; [|done]. split; [done|]. exists (c :: body).
      split; [rewrite not_elem_of_cons; by split|].
      destruct Hl as [->| ->]; [by left | by right].
Qed.

Lemma file_lines_elements s l c : l ∈ file_lines s -> c ∈ l -> c ∈ s.
Proof.
  revert l. induction s as [|d r IH]; simpl; intros l Hl Hc.
  - by apply elem_of_nil in Hl.
  - destruct (N.eqb_spec d nl) as [->|Hd].
    + apply elem_of_cons in Hl as [->|Hl].
      * apply list_elem_of_singleton in Hc as ->. by left.
      * right. by eapply IH.
    + destruct (file_lines r) as [|l' ls].
      * apply list_elem_of_singleton in Hl as ->.
        apply list_elem_of_singleton in Hc as ->. by left.
      * apply elem_of_cons in Hl as [->|Hl].
        -- apply elem_of_cons in Hc as [->|Hc]; [by left|].
           right. eapply IH; [by left | done].
        -- right. eapply IH; [by right | done].
Qed.

Lemma lstrip_snoc s c :
  lstrip (s ++ [c])
  = match lstrip s with
    | [] => lstrip [c]
    | _ :: _ => lstrip s ++ [c]
    end.
Proof.
  induction s as [|d s IH]; [done|]. simpl.
  by destruct (is_space d).
Qed.

Lemma rstrip_snoc_space s c : is_space c = true -> rstrip (s ++ [c]) = rstrip s.
Proof.
  intros Hc. unfold rstrip. rewrite rev_app_distr. simpl. by rewrite Hc.
Qed.

(** Stripping removes a white space character at the end. *)
Lemma strip_snoc_space s c : is_space c = true -> strip (s ++ [c]) = strip s.
Proof.
  intros Hc. unfold strip. rewrite lstrip_snoc.
  destruct (lstrip s) as [|d r] eqn:E.
  - simpl. by rewrite Hc.
  - by apply rstrip_snoc_space.
Qed.

Lemma requirement_line_nonempty l :
  l <> [] -> requirement_line l = negb (bool_decide (head l = Some 35)).
Proof.
  destruct l as [|c l]; [done|]. intros _. simpl.
  destruct (N.eqb_spec c 35) as [->|Hc].
  - by rewrite bool_decide_eq_true_2.
  - rewrite bool_decide_eq_false_2; [done | congruence].
Qed.

End RequirementsFacts.

(** X18. Every entry that [requirements] returns is stripped and contains
    neither a line feed nor a carriage return. *)
Theorem requirements_entries_clean (fs : gmap str str) (filename : str)
    (reqs : list str) :
  requirements fs filename = Some reqs ->
  Forall (fun r => strip r = r /\ (nl ∉ r) /\ (cr ∉ r)) reqs.
Proof.
  unfold requirements. destruct (fs !! filename) as [content|]; [|done].
  intros [= <-]. apply Forall_forall. intros r Hr.
  apply list_elem_of_In, in_map_iff in Hr as (l & <- & Hl).
  apply filter_In in Hl as [Hl _]. apply list_elem_of_In in Hl.
  split; [apply strip_idemp|]. split.
  - pose proof (file_lines_shape (universal_newlines content)) as Hs.
    rewrite Forall_forall in Hs.
    destruct (Hs l Hl) as (_ & body & Hb & [->| ->]).
    + by intros ?%elem_of_strip.
    + rewrite strip_snoc_space by done. by intros ?%elem_of_strip.
  - intros Hc%elem_of_strip.
    apply (universal_newlines_no_cr content).
    by eapply file_lines_elements.
Qed.

Lemma requirements_entries_clean_witness :
  Forall (fun r => strip r = r /\ (nl ∉ r) /\ (cr ∉ r))
    [lit "regex >= 2021.4"; []; lit "# tests"; lit "pytest"].
Proof.
  apply (requirements_entries_clean example_fs (lit "requirements.txt")).
  reflexivity.
Defined.

(** X19. [requirements] returns one entry for each line of the file that
    does not begin with "#", in the order of the file: a blank line gives
    an empty entry and a comment after white space is kept, since only
    the first character of the line is looked at. *)
Theorem requirements_entries (fs : gmap str str) (filename : str)
    (reqs : list str) :
  requirements fs filename = Some reqs ->
  exists content,
    fs !! filename = Some content
    /\ reqs
       = map strip
           (List.filter (fun l => negb (bool_decide (head l = Some 35)))
              (file_lines (universal_newlines content))).
Proof.
  unfold requirements. destruct (fs !! filename) as [content|]; [|done].
  intros [= <-]. exists content. split; [done|]. f_equal.
  pose proof (file_lines_shape (universal_newlines content)) as Hs.
  induction Hs as [|l ls [Hl _] _ IH]; [done|]. simpl.
  rewrite (requirement_line_nonempty l Hl), IH. done.
Qed.

Lemma requirements_entries_witness :
  exists content,
    example_fs !! lit "requirements.txt" = Some content
    /\ [lit "regex >= 2021.4"; []; lit "# tests"; lit "pytest"]
       = map strip
           (List.filter (fun l => negb (bool_decide (head l = Some 35)))
              (file_lines (universal_newlines content))).
Proof.
  apply (requirements_entries example_fs (lit "requirements.txt")).
  reflexivity.
Defined.
